(** * CodeCopier: a shallow embedding of [src/index.ts]

    CodeCopier scans the working directory with a glob, asks the user about
    every file found (y / n / p / q), and concatenates the accepted files
    into one Markdown document, optionally gzip-compressed.

    The embedding follows the TypeScript source function by function.
    JavaScript strings are modelled as Rocq strings holding the bytes of their
    UTF-8 encoding; the characters the program inspects (the answer
    letters, the dot and the slash of a path) are ASCII, so the two views
    agree on every test the code performs.  Promises are run to completion
    one after the other, as the source awaits each of them; the effects of
    the program (console, terminal prompts, files written) are recorded in
    an explicit state.  The Node.js runtime and the npm packages (path,
    fs, JSON, glob, micromatch, zlib) are not part of the repository: what
    the program needs of them is gathered in the records [Runtime] and
    [World]. *)

From Stdlib Require Import Ascii.
From stdpp Require Import gmap strings list fin_maps pretty.

#[local] Set Warnings "-register-all".
#[local] Open Scope string_scope.

(** ** Strings *)

Definition nl : string := String (Ascii.ascii_of_nat 10) EmptyString.
Definition dquote : string := String (Ascii.ascii_of_nat 34) EmptyString.
Definition fence : string := "```".

(** [String.prototype.toLowerCase] on the ASCII letters.  No character
    outside ASCII lowers to one of the four answer letters, and the bytes
    of a multi-byte character are all above 127, so the [switch] of the
    selection loop takes the same branch as in JavaScript. *)
Definition lower_char (c : Ascii.ascii) : Ascii.ascii :=
  let n := Ascii.nat_of_ascii c in
  if (65 <=? n)%nat && (n <=? 90)%nat then Ascii.ascii_of_nat (n + 32) else c.

Fixpoint toLowerCase (s : string) : string :=
  match s with
  | EmptyString => EmptyString
  | String c s' => String (lower_char c) (toLowerCase s')
  end.

(** [s.slice(1)] *)
Definition slice1 (s : string) : string :=
  match s with
  | EmptyString => EmptyString
  | String _ s' => s'
  end.

(** [s.includes(needle)] *)
Fixpoint includes (needle s : string) : bool :=
  String.prefix needle s ||
  match s with
  | EmptyString => false
  | String _ s' => includes needle s'
  end.

(** [Array.prototype.join] on an array of strings *)
Fixpoint join (sep : string) (items : list string) : string :=
  match items with
  | [] => EmptyString
  | [x] => x
  | x :: rest => x +:+ sep +:+ join sep rest
  end.

(** Insertion order of a JavaScript [Set]: an item already seen is
    skipped, so the first occurrence of each item is the one kept. *)
Fixpoint set_order (seen : list string) (items : list string) : list string :=
  match items with
  | [] => []
  | x :: rest =>
      if bool_decide (x ∈ seen) then set_order seen rest
      else x :: set_order (x :: seen) rest
  end.

(** ** JavaScript values *)

(** The result of [JSON.parse].  A number keeps the text of its literal:
    the program never computes with one. *)
Inductive json :=
| JNull
| JBool (b : bool)
| JNumber (literal : string)
| JString (s : string)
| JArray (items : list json)
| JObject (props : gmap string json).

(** An [Error] instance, with the two properties the program reads. *)
Record js_error := { message : string; stack : string }.

(** What a [catch] clause can receive: an [Error] instance, or any other
    value, of which the handlers only use [String(error)]. *)
Inductive thrown :=
| ErrorObj (e : js_error)
| NonError (text : string).

(** ** The platform *)

(** The functions of Node.js and of the npm packages the program calls.
    [picomatch] is the matcher micromatch compiles a pattern into (it
    raises on a pattern it does not accept, such as the empty string);
    [minimatch] and [glob_ignored] are the tests glob applies to the paths it
    walks, for its pattern and for an entry of its [ignore] option;
    [stack_trace] is the text of the [stack] of an error created with
    the given message. *)
Record Runtime := {
  path_join : string → string → string;
  path_resolve : string → string;
  JSON_parse : string → thrown + json;
  minimatch : string → string → bool;
  glob_ignored : string → string → bool;
  picomatch : string → thrown + (string → bool);
  gzip : string → js_error + string;
  stack_trace : string → string;
}.

(** yargs' view of the command line: [interface ArgvOptions].  The
    fields live in a module of their own, the program using [config] and
    [output] as names of local variables too. *)
Module ArgvOptions.
Record t := {
  config : option string;
  output : string;
  compress : option bool;
  verbose : option bool;
}.
End ArgvOptions.

(** The state of the machine the program is started on: the working
    directory, the command line and the file system.  [walk dir] is what
    glob finds under [dir]: the paths relative to [dir], in the order glob
    reports them, each with the flag telling whether it is a directory; or
    the error of the walk.  [write_error path] is the error
    [fs.writeFileSync] raises for [path], if it does. *)
Record World := {
  cwd : string;
  argv : ArgvOptions.t;
  existsSync : string → bool;
  readFileSync : string → thrown + string;
  walk : string → js_error + list (string * bool);
  write_error : string → option thrown;
}.

Definition new_Error (rt : Runtime) (msg : string) : thrown :=
  ErrorObj {| message := msg; stack := stack_trace rt msg |}.

(** JavaScript truthiness of a flag that may be absent *)
Definition flag (b : option bool) : bool := default false b.

(** ** Effects *)

Inductive color := blue | green | yellow | cyan | red | gray.

(** What the program does to the outside, in the order it does it.  The
    colours chalk applies are kept as a tag; the progress bar is recorded
    by the two numbers it is drawn from. *)
Inductive event :=
| console_log (c : color) (text : string)
| console_error (c : color) (text : string)
| stdout_write (text : string)
| progress_bar (current total : nat)
| rl_question (c : color) (prompt : string)
| spinner_start (text : string)
| spinner_text (text : string)
| spinner_succeed (c : color) (text : string)
| spinner_fail (c : color) (text : string)
| glob_call (pattern dir : string) (ignore : list string)
| rl_close
| process_exit (code : nat).

(** The mutable surroundings of a run: the lines still to be read from
    standard input, what has been shown so far, and the files written. *)
Record io := {
  stdin : list string;
  trace : list event;
  disk : gmap string string;
}.

(** How an awaited computation ends: with a value, with an exception (a
    rejected promise), or never, because it waits for a line that standard
    input does not deliver. *)
Inductive completion (A : Type) :=
| Normal (a : A)
| Abrupt (e : thrown)
| Starved.
Arguments Normal {A} a.
Arguments Abrupt {A} e.
Arguments Starved {A}.

Definition prog (A : Type) : Type := io → io * completion A.

Definition ret {A} (a : A) : prog A := λ s, (s, Normal a).

Definition bind {A B} (m : prog A) (k : A → prog B) : prog B :=
  λ s, match m s with
       | (s', Normal a) => k a s'
       | (s', Abrupt e) => (s', Abrupt e)
       | (s', Starved) => (s', Starved)
       end.

Definition throw {A} (e : thrown) : prog A := λ s, (s, Abrupt e).

Definition emit (e : event) : prog unit :=
  λ s, ({| stdin := stdin s; trace := trace s ++ [e]; disk := disk s |}, Normal tt).

Definition lift {A} (r : thrown + A) : prog A :=
  match r with
  | inl e => throw e
  | inr a => ret a
  end.

(** [try { body } catch (error) { handler }] *)
Definition try_catch {A} (body : prog A) (handler : thrown → prog A) : prog A :=
  λ s, match body s with
       | (s', Abrupt e) => handler e s'
       | r => r
       end.

(** [try { body } finally { cleanup }]: the cleanup runs when the body
    returns or throws; a body that never ends never reaches it. *)
Definition try_finally {A} (body : prog A) (cleanup : prog unit) : prog A :=
  λ s, match body s with
       | (s', Starved) => (s', Starved)
       | (s', c) =>
           match cleanup s' with
           | (s'', Normal _) => (s'', c)
           | (s'', Abrupt e) => (s'', Abrupt e)
           | (s'', Starved) => (s'', Starved)
           end
       end.

Notation "'let*' x ':=' m 'in' k" := (bind m (λ x, k))
  (at level 10, x name, m at level 100, k at level 200, only parsing).
Notation "m >> k" := (bind m (λ _, k))
  (at level 100, k at level 200, right associativity, only parsing).

(** ** The selection loop: [selectFiles] *)

(** [micromatch(list, pattern)] with one pattern and no options: the
    pattern is compiled once, the items the matcher accepts are collected
    in a [Set] while the list is traversed, and the set is returned as an
    array. *)
Definition micromatch (rt : Runtime) (items : list string) (pattern : string)
  : thrown + list string :=
  match picomatch rt pattern with
  | inl e => inl e
  | inr isMatch => inr (set_order [] (filter (λ item, Is_true (isMatch item)) items))
  end.

(** The variables the closure [askForFile] shares with [selectFiles], and
    what the loop has written to the terminal. *)
Record selecting := {
  selectedFiles : list string;
  index : nat;
  shown : list event;
}.

Definition show (e : event) (st : selecting) : selecting :=
  {| selectedFiles := selectedFiles st; index := index st; shown := shown st ++ [e] |}.

(** How the promise of [askForFile] ends: resolved, with the lines left
    unread; rejected (micromatch raised); or pending for ever, a question
    being asked when standard input has no line left. *)
Inductive loop_end :=
| Resolved (st : selecting) (unread : list string)
| Rejected (e : thrown) (st : selecting) (unread : list string)
| Waiting (st : selecting).

(** [askForFile]: each call asks one question (two for [p]) and calls
    itself again, so the recursion is on the lines read. *)
Fixpoint askForFile (rt : Runtime) (files : list string) (lines : list string)
    (st : selecting) {struct lines} : loop_end :=
  if (length files <=? index st)%nat then
    Resolved (show (stdout_write nl) st) lines
  else
    let st := show (progress_bar (index st + 1) (length files)) st in
    let file := default EmptyString (files !! index st) in
    let st := show (rl_question yellow (nl +:+ "Include " +:+ file +:+ "? (y/n/p/q) ")) st in
    match lines with
    | [] => Waiting st
    | answer :: lines =>
        let a := toLowerCase answer in
        if String.eqb a "y" then
          askForFile rt files lines
            {| selectedFiles := selectedFiles st ++ [file];
               index := index st + 1;
               shown := shown st |}
        else if String.eqb a "n" then
          askForFile rt files lines
            {| selectedFiles := selectedFiles st;
               index := index st + 1;
               shown := shown st |}
        else if String.eqb a "p" then
          let st := show (rl_question cyan "Enter glob pattern: ") st in
          match lines with
          | [] => Waiting st
          | pattern :: lines =>
              match micromatch rt (drop (index st) files) pattern with
              | inl e => Rejected e st lines
              | inr matchedFiles =>
                  askForFile rt files lines
                    (show (console_log green
                             ("Added " +:+ pretty (length matchedFiles)
                              +:+ " files matching the pattern."))
                       {| selectedFiles := selectedFiles st ++ matchedFiles;
                          index := index st + length matchedFiles;
                          shown := shown st |})
              end
          end
        else if String.eqb a "q" then
          Resolved (show (stdout_write nl) st) lines
        else
          askForFile rt files lines
            (show (console_log red "Invalid input. Please enter y, n, p, or q.") st)
    end.

(** [selectedFiles = []], [index = 0], and nothing shown yet. *)
Definition fresh : selecting :=
  {| selectedFiles := []; index := 0; shown := [] |}.

Definition selectFiles (rt : Runtime) (files : list string) : prog (list string) :=
  emit (console_log blue "Select files to include:") >>
  λ s,
    match askForFile rt files (stdin s) fresh with
    | Resolved st unread =>
        ({| stdin := unread; trace := trace s ++ shown st; disk := disk s |},
         Normal (selectedFiles st))
    | Rejected e st unread =>
        ({| stdin := unread; trace := trace s ++ shown st; disk := disk s |},
         Abrupt e)
    | Waiting st =>
        ({| stdin := []; trace := trace s ++ shown st; disk := disk s |},
         Starved)
    end.

(** ** Configuration: [validateConfig], [getConfiguration] *)

(** [interface CodeCopierConfig]: the static type of a configuration. *)
Record CodeCopierConfig := {
  exclude : list string;
  include : list string;
}.

(** At run time a configuration is the object built by the spread
    expression; an object is a finite map from property names to values. *)
Definition defaultConfig : gmap string json :=
  {[ "exclude" := JArray [JString "node_modules/**"; JString ".git/**"];
     "include" := JArray [JString "**/*.{js,ts,py,java,c,cpp,h,hpp,css,html}"] ]}.

Definition index_keys {A} (items : list A) : gmap string A :=
  list_to_map (imap (λ i x, (pretty i, x)) items).

(** The own enumerable properties a spread [...v] copies: those of an
    object; the indices of an array or of a string; none of [null], of a
    boolean or of a number. *)
Definition own_props (v : json) : gmap string json :=
  match v with
  | JObject props => props
  | JArray items => index_keys items
  | JString s =>
      index_keys ((λ c, JString (String c EmptyString)) <$> String.list_ascii_of_string s)
  | JNull | JBool _ | JNumber _ => ∅
  end.

(** [{ ...a, ...b }]: the properties of [b] win. *)
Definition spread (a b : gmap string json) : gmap string json := b ∪ a.

Definition isArray (v : option json) : bool :=
  match v with
  | Some (JArray _) => true
  | _ => false
  end.

Definition is_string (v : json) : bool :=
  match v with
  | JString _ => true
  | _ => false
  end.

Definition elements (v : option json) : list json :=
  match v with
  | Some (JArray items) => items
  | _ => []
  end.

Definition validateConfig (rt : Runtime) (config : gmap string json) : thrown + unit :=
  if negb (isArray (config !! "exclude")) || negb (isArray (config !! "include")) then
    inl (new_Error rt ("Configuration error: " +:+ dquote +:+ "exclude" +:+ dquote
                       +:+ " and " +:+ dquote +:+ "include" +:+ dquote
                       +:+ " must be arrays"))
  else if existsb (λ pattern, negb (is_string pattern)) (elements (config !! "exclude"))
          || existsb (λ pattern, negb (is_string pattern)) (elements (config !! "include")) then
    inl (new_Error rt "Configuration error: All patterns must be strings")
  else inr tt.

Definition configPath_of (rt : Runtime) (w : World) (rootPath : string) : string :=
  match ArgvOptions.config (argv w) with
  | Some c =>
      if String.eqb c EmptyString then path_join rt rootPath ".codecopierrc.json"
      else path_resolve rt c
  | None => path_join rt rootPath ".codecopierrc.json"
  end.

Definition getConfiguration (rt : Runtime) (w : World) (rootPath : string)
  : prog (gmap string json) :=
  emit (console_log blue "Getting configuration...") >>
  let configPath := configPath_of rt w rootPath in
  if existsSync w configPath then
    emit (console_log green ("Configuration file found at: " +:+ configPath)) >>
    try_catch
      (let* configContent := lift (readFileSync w configPath) in
       let* parsedConfig := lift (JSON_parse rt configContent) in
       let mergedConfig := spread defaultConfig (own_props parsedConfig) in
       lift (validateConfig rt mergedConfig) >>
       ret mergedConfig)
      (λ error,
         match error with
         | ErrorObj e =>
             throw (new_Error rt ("Error reading or parsing configuration file: "
                                  +:+ message e))
         | NonError _ =>
             throw (new_Error rt
                      "An unknown error occurred while reading the configuration file")
         end)
  else
    emit (console_log yellow "Using default configuration") >>
    ret defaultConfig.

(** The typed view of a configuration object: defined exactly when the
    object passes [validateConfig]. *)
Definition string_array (v : option json) : option (list string) :=
  match v with
  | Some (JArray items) =>
      mapM (λ x, match x with JString s => Some s | _ => None end) items
  | _ => None
  end.

Definition config_view (config : gmap string json) : option CodeCopierConfig :=
  match string_array (config !! "exclude"), string_array (config !! "include") with
  | Some ex, Some inc => Some {| exclude := ex; include := inc |}
  | _, _ => None
  end.

(** ** Discovery: [getAllFiles] *)

(** [glob(pattern, { cwd, ignore, nodir }, callback)]: of the entries
    found under [cwd], glob reports those its pattern matches, that no
    entry of [ignore] matches, and that are not directories when [nodir]
    is set; every path is reported once. *)
Definition glob (rt : Runtime) (w : World) (pattern dir : string)
    (ignore : list string) (nodir : bool) : js_error + list string :=
  match walk w dir with
  | inl err => inl err
  | inr entries =>
      inr (set_order []
             (fst <$> filter
                (λ entry, Is_true (minimatch rt pattern entry.1
                                   && negb (existsb (λ ig, glob_ignored rt ig entry.1) ignore)
                                   && negb (nodir && entry.2)))
                entries))
  end.

Fixpoint emit_all (events : list event) : prog unit :=
  match events with
  | [] => ret tt
  | e :: rest => emit e >> emit_all rest
  end.

Definition getAllFiles (rt : Runtime) (w : World) (dir : string)
    (config : CodeCopierConfig) : prog (list string) :=
  emit (spinner_start "Getting all files...") >>
  emit (glob_call (join "|" (include config)) dir (exclude config)) >>
  match glob rt w (join "|" (include config)) dir (exclude config) true with
  | inl err =>
      emit (spinner_fail red "Error in getAllFiles:") >>
      if includes "ENOENT" (message err) then
        throw (new_Error rt ("Directory not found: " +:+ dir))
      else if includes "EACCES" (message err) then
        throw (new_Error rt ("Permission denied: Cannot access " +:+ dir))
      else
        throw (new_Error rt ("Error reading directory: " +:+ message err))
  | inr files =>
      emit (spinner_succeed green ("Found " +:+ pretty (length files) +:+ " files")) >>
      (if (0 <? length files)%nat && flag (ArgvOptions.verbose (argv w)) then
         emit (console_log cyan "First few files found:") >>
         emit_all ((λ file, console_log gray ("- " +:+ file)) <$> take 5 files) >>
         if (5 <? length files)%nat then
           emit (console_log cyan ("... and " +:+ pretty (length files - 5) +:+ " more"))
         else ret tt
       else ret tt) >>
      ret files
  end.

(** ** The output document: [getFileExtension], [collectCode] *)

(** The variables of the loop of [path.extname] (POSIX flavour of Node.js).
    The loop runs over the path from its last character to its first. *)
Record extname_vars := {
  startDot : Z;
  startPart : Z;
  end_ : Z;
  matchedSlash : bool;
  preDotState : Z;
}.

Fixpoint extname_loop (rev_path : list Ascii.ascii) (i : Z) (v : extname_vars)
  : extname_vars :=
  match rev_path with
  | [] => v
  | code :: rest =>
      if Ascii.eqb code "/"%char then
        if negb (matchedSlash v) then
          {| startDot := startDot v; startPart := i + 1; end_ := end_ v;
             matchedSlash := matchedSlash v; preDotState := preDotState v |}
        else extname_loop rest (i - 1) v
      else
        let v :=
          if (end_ v =? -1)%Z then
            {| startDot := startDot v; startPart := startPart v; end_ := i + 1;
               matchedSlash := false; preDotState := preDotState v |}
          else v in
        let v :=
          if Ascii.eqb code "."%char then
            if (startDot v =? -1)%Z then
              {| startDot := i; startPart := startPart v; end_ := end_ v;
                 matchedSlash := matchedSlash v; preDotState := preDotState v |}
            else if negb (preDotState v =? 1)%Z then
              {| startDot := startDot v; startPart := startPart v; end_ := end_ v;
                 matchedSlash := matchedSlash v; preDotState := 1 |}
            else v
          else if negb (startDot v =? -1)%Z then
            {| startDot := startDot v; startPart := startPart v; end_ := end_ v;
               matchedSlash := matchedSlash v; preDotState := -1 |}
          else v in
        extname_loop rest (i - 1) v
  end.

Definition extname (path : string) : string :=
  let v := extname_loop (reverse (String.list_ascii_of_string path))
             (Z.of_nat (String.length path) - 1)
             {| startDot := -1; startPart := 0; end_ := -1;
                matchedSlash := true; preDotState := 0 |} in
  if (startDot v =? -1)%Z
     || (end_ v =? -1)%Z
     || (preDotState v =? 0)%Z
     || ((preDotState v =? 1)%Z
         && (startDot v =? end_ v - 1)%Z
         && (startDot v =? startPart v + 1)%Z)
  then EmptyString
  else String.substring (Z.to_nat (startDot v)) (Z.to_nat (end_ v - startDot v)) path.

(** The own properties of the object literal [languageMap]. *)
Definition languageMap : gmap string string :=
  list_to_map
    [("js", "javascript"); ("ts", "typescript"); ("py", "python");
     ("java", "java"); ("c", "c"); ("cpp", "cpp"); ("h", "cpp");
     ("hpp", "cpp"); ("css", "css"); ("html", "html")].

(** [languageMap] is written as an object literal, so a property it does
    not own is looked up in [Object.prototype], which has these. *)
Definition Object_prototype : list string :=
  ["constructor"; "__defineGetter__"; "__defineSetter__"; "hasOwnProperty";
   "__lookupGetter__"; "__lookupSetter__"; "isPrototypeOf";
   "propertyIsEnumerable"; "toString"; "valueOf"; "__proto__";
   "toLocaleString"].

(** What [getFileExtension] can return: a string, or the value of a
    property inherited from [Object.prototype] (a built-in function, or the
    prototype itself for [__proto__]); such a value is truthy. *)
Inductive js_value :=
| str (s : string)
| inherited (name : string).

Definition getFileExtension (file : string) : js_value :=
  let ext := slice1 (extname file) in
  match languageMap !! ext with
  | Some tag => if String.eqb tag EmptyString then str EmptyString else str tag
  | None =>
      if bool_decide (ext ∈ Object_prototype) then inherited ext
      else str EmptyString
  end.

(** The string a value becomes when it is concatenated to a string. *)
Definition to_string (v : js_value) : string :=
  match v with
  | str s => s
  | inherited name =>
      if String.eqb name "__proto__" then "[object Object]"
      else if String.eqb name "constructor" then "function Object() { [native code] }"
      else "function " +:+ name +:+ "() { [native code] }"
  end.

(** The body of the [forEach] of [collectCode], run over the files from
    position [index] on; [output] is the variable it appends to. *)
Fixpoint collect_each (rt : Runtime) (w : World) (rootPath : string) (total : nat)
    (index : nat) (files : list string) (output : string) : prog string :=
  match files with
  | [] => ret output
  | file :: rest =>
      emit (spinner_text ("Processing file " +:+ pretty (index + 1) +:+ "/"
                          +:+ pretty total +:+ ": " +:+ file)) >>
      let fullPath := path_join rt rootPath file in
      let output := output +:+ ("## File: " +:+ file +:+ nl +:+ nl) in
      let output := output +:+ (fence +:+ to_string (getFileExtension file) +:+ nl) in
      let* content := lift (readFileSync w fullPath) in
      let output := output +:+ content in
      let output := output +:+ (nl +:+ fence +:+ nl +:+ nl) in
      collect_each rt w rootPath total (index + 1) rest output
  end.

Definition collectCode (rt : Runtime) (w : World) (rootPath : string)
    (filesToInclude : list string) : prog string :=
  emit (console_log blue "Collecting code...") >>
  let output := "# CodeCopier Output" +:+ nl +:+ nl in
  emit (spinner_start "Processing files") >>
  let* output := collect_each rt w rootPath (length filesToInclude) 0 filesToInclude output in
  emit (spinner_succeed green "All files processed") >>
  ret output.

(** ** Writing: [compressOutput], [writeOutput] *)

Definition writeFileSync (w : World) (path data : string) : prog unit :=
  λ s, match write_error w path with
       | Some e => (s, Abrupt e)
       | None =>
           ({| stdin := stdin s; trace := trace s; disk := <[path := data]> (disk s) |},
            Normal tt)
       end.

Definition compressOutput (rt : Runtime) (content : string) : prog string :=
  match gzip rt content with
  | inl error => throw (ErrorObj error)
  | inr result => ret result
  end.

Definition writeOutput (rt : Runtime) (w : World) (content outputPath : string)
    (compress : bool) : prog unit :=
  if compress then
    let* compressedContent := compressOutput rt content in
    writeFileSync w (outputPath +:+ ".gz") compressedContent >>
    emit (console_log green ("Compressed code collected in " +:+ outputPath +:+ ".gz"))
  else
    writeFileSync w outputPath content >>
    emit (console_log green ("Code collected in " +:+ outputPath)).

(** ** The program: [main] and the handler attached to its promise *)

(** The body shared by the [catch] clause of [main] and by the handler of
    [main().catch]: the message, and the stack when [--verbose] is set. *)
Definition report (w : World) (error : thrown) : prog unit :=
  match error with
  | ErrorObj e =>
      emit (console_error red (message e)) >>
      if flag (ArgvOptions.verbose (argv w)) then emit (console_error gray (stack e))
      else ret tt
  | NonError text => emit (console_error red text)
  end.

Definition main (rt : Runtime) (w : World) : prog unit :=
  emit (console_log blue "CodeCopier is starting...") >>
  try_finally
    (try_catch
       (let rootPath := cwd w in
        emit (console_log blue ("Working in directory: " +:+ rootPath)) >>
        let* config := getConfiguration rt w rootPath in
        emit (console_log cyan "Configuration loaded. Searching for files...") >>
        let* allFiles :=
          match config_view config with
          | Some config => getAllFiles rt w rootPath config
          | None => throw (new_Error rt "config.include.join is not a function")
          end in
        if (length allFiles =? 0)%nat then
          emit (console_log yellow "No files found matching the criteria.") >>
          emit (console_log cyan
                  "Check your configuration and make sure you're in the correct directory.")
        else
          emit (console_log green ("Found " +:+ pretty (length allFiles)
                                   +:+ " files. Starting selection process...")) >>
          let* selectedFiles := selectFiles rt allFiles in
          if (length selectedFiles =? 0)%nat then
            emit (console_log yellow "No files selected. Exiting...")
          else
            emit (console_log green (pretty (length selectedFiles)
                                     +:+ " files selected. Collecting code...")) >>
            let* output := collectCode rt w rootPath selectedFiles in
            let outputPath := path_join rt rootPath (ArgvOptions.output (argv w)) in
            writeOutput rt w output outputPath (flag (ArgvOptions.compress (argv w))) >>
            emit (console_log green "CodeCopier completed successfully!"))
       (λ error,
          emit (console_error red "An error occurred:") >>
          report w error))
    (emit rl_close).

(** How a run ends.  [exit code]: the promise of [main] settled and the
    process left with that code.  [stalled]: the promise of [main] never
    settles, a question waiting for a line that does not come; nothing more
    of the program runs, its [finally] block included (should standard
    input come to its end, Node.js leaves with code 0 at that point). *)
Inductive ending :=
| exit (code : nat)
| stalled.

(** The last statement of the file: [main().catch(...)].  A promise that
    resolves lets the process end by itself, with code 0; a rejected one
    runs the handler, which ends the process with code 1. *)
Definition run (rt : Runtime) (w : World) (lines : list string) : io * ending :=
  match main rt w {| stdin := lines; trace := []; disk := ∅ |} with
  | (s, Normal _) => (s, exit 0)
  | (s, Abrupt error) =>
      (((emit (console_error red "Unhandled error:") >>
         report w error >>
         emit (process_exit 1)) s).1, exit 1)
  | (s, Starved) => (s, stalled)
  end.

(** ** A small platform to run the program on *)

(** The fragment of the glob syntax the examples are written in: a
    character stands for itself, [?] for one character that is not a slash,
    [*] for any run of such characters.  The vertical bar is an ordinary
    character here, as it is for glob outside a parenthesised group. *)
Fixpoint wildcard (pattern : string) : string → bool :=
  match pattern with
  | EmptyString => λ s, match s with EmptyString => true | _ => false end
  | String p pattern' =>
      if Ascii.eqb p "*"%char then
        fix star (s : string) : bool :=
          wildcard pattern' s ||
          match s with
          | EmptyString => false
          | String c s' => negb (Ascii.eqb c "/"%char) && star s'
          end
      else
        λ s, match s with
             | EmptyString => false
             | String c s' =>
                 (if Ascii.eqb p "?"%char then negb (Ascii.eqb c "/"%char) else Ascii.eqb p c)
                 && wildcard pattern' s'
             end
  end.

(** A toy codec standing for zlib: the text behind a two-letter header. *)
Definition store (content : string) : string := "gz" +:+ content.

Definition unstore (data : string) : option string :=
  match data with
  | String "g" (String "z" content) => Some content
  | _ => None
  end.

(** Three configuration files, as JSON text. *)
Definition empty_json : string := "{}".

Definition bad_exclude_json : string :=
  "{" +:+ dquote +:+ "exclude" +:+ dquote +:+ ": "
  +:+ dquote +:+ "notAnArray" +:+ dquote +:+ "}".

Definition two_includes_json : string :=
  "{" +:+ dquote +:+ "include" +:+ dquote +:+ ": ["
  +:+ dquote +:+ "*.js" +:+ dquote +:+ ", "
  +:+ dquote +:+ "*.ts" +:+ dquote +:+ "]}".

(** A platform with POSIX-like paths, the matcher above for every glob,
    and a JSON parser that knows the three documents above. *)
Definition plain_runtime : Runtime :=
  {| path_join := λ a b, a +:+ "/" +:+ b;
     path_resolve := λ p, p;
     JSON_parse := λ text,
       if String.eqb text empty_json then inr (JObject ∅)
       else if String.eqb text bad_exclude_json then
         inr (JObject {[ "exclude" := JString "notAnArray" ]})
       else if String.eqb text two_includes_json then
         inr (JObject {[ "include" := JArray [JString "*.js"; JString "*.ts"] ]})
       else inl (ErrorObj {| message := "Unexpected token"; stack := "SyntaxError" |});
     minimatch := wildcard;
     glob_ignored := wildcard;
     picomatch := λ pattern,
       if String.eqb pattern EmptyString then
         inl (ErrorObj {| message := "Expected pattern to be a non-empty string";
                          stack := "TypeError" |})
       else inr (wildcard pattern);
     gzip := λ content, inr (store content);
     stack_trace := λ msg, "Error: " +:+ msg |}.

(** A project directory [/proj] holding the given entries (a relative
    path with the text of the file, or with nothing for a directory);
    every file can be read and written.  Under any other directory glob
    finds nothing, as it does under a directory that does not exist. *)
Definition project (args : ArgvOptions.t) (tree : list (string * option string)) : World :=
  {| cwd := "/proj";
     argv := args;
     existsSync := λ p,
       existsb (λ entry, String.eqb p ("/proj/" +:+ entry.1)) tree;
     readFileSync := λ p,
       match List.find (λ entry, String.eqb p ("/proj/" +:+ entry.1)) tree with
       | Some (_, Some text) => inr text
       | Some (_, None) =>
           inl (ErrorObj {| message := "EISDIR: illegal operation on a directory, read";
                            stack := "Error: EISDIR" |})
       | None =>
           inl (ErrorObj {| message := "ENOENT: no such file or directory, open '" +:+ p +:+ "'";
                            stack := "Error: ENOENT" |})
       end;
     walk := λ dir,
       if String.eqb dir "/proj" then
         inr ((λ entry, (entry.1, bool_decide (entry.2 = None))) <$> tree)
       else inr [];
     write_error := λ _, None |}.

Definition default_args : ArgvOptions.t :=
  {| ArgvOptions.config := None;
     ArgvOptions.output := "codecopier_output.md";
     ArgvOptions.compress := Some false;
     ArgvOptions.verbose := Some false |}.

(** A project whose configuration file gives [exclude] as a string, and
    one whose configuration file lists two include patterns. *)
Definition bad_exclude_project : World :=
  project default_args
    [(".codecopierrc.json", Some bad_exclude_json);
     ("a.js", Some "console.log(1)")].

Definition two_includes_project : World :=
  project default_args
    [(".codecopierrc.json", Some two_includes_json);
     ("a.js", Some "console.log(1)");
     ("b.ts", Some "let x = 1")].

(** ** Reference definitions the properties are stated with *)

(** The candidates answered [y], in the order of the candidate list. *)
Fixpoint accepted (files answers : list string) : list string :=
  match files, answers with
  | file :: files, answer :: answers =>
      if String.eqb answer "y" then file :: accepted files answers
      else accepted files answers
  | _, _ => []
  end.

(** What the loop shows when it asks about the candidate under the cursor. *)
Definition asking (files : list string) (st : selecting) : selecting :=
  show (rl_question yellow
          (nl +:+ "Include " +:+ default EmptyString (files !! index st)
           +:+ "? (y/n/p/q) "))
    (show (progress_bar (index st + 1) (length files)) st).

(** The contract of discovery, as the specification words it: of the
    entries found under the root, the regular files that match at least one
    include pattern and no exclude pattern, each once, in the order of the
    walk. *)
Definition discovery_contract (rt : Runtime) (config : CodeCopierConfig)
    (entries : list (string * bool)) : list string :=
  set_order []
    (fst <$> filter
       (λ entry, Is_true (existsb (λ pattern, minimatch rt pattern entry.1) (include config)
                          && negb (existsb (λ ig, glob_ignored rt ig entry.1) (exclude config))
                          && negb entry.2))
       entries).




(** The two messages of [validateConfig]. *)
Definition must_be_arrays : string :=
  "Configuration error: " +:+ dquote +:+ "exclude" +:+ dquote
  +:+ " and " +:+ dquote +:+ "include" +:+ dquote +:+ " must be arrays".




(** The document as the specification describes it: the title line, then
    for each file a header with its path, a fenced block carrying the tag
    [getFileExtension] gives and the text of the file, and an empty line. *)
Definition title : string := "# CodeCopier Output" +:+ nl +:+ nl.

Definition section_of (file text : string) : string :=
  "## File: " +:+ file +:+ nl +:+ nl
  +:+ fence +:+ to_string (getFileExtension file) +:+ nl
  +:+ text +:+ nl
  +:+ fence +:+ nl +:+ nl.

Fixpoint sections (files texts : list string) : string :=
  match files, texts with
  | file :: files, text :: texts => section_of file text +:+ sections files texts
  | _, _ => EmptyString
  end.

(** ** Definitions for the properties of the loop and of the whole run *)

(** The state the loop ends in, however it ends. *)
Definition loop_state (r : loop_end) : selecting :=
  match r with
  | Resolved st _ => st
  | Rejected _ st _ => st
  | Waiting st => st
  end.

(** The lines the loop did not read. *)
Definition loop_unread (r : loop_end) : list string :=
  match r with
  | Resolved _ unread => unread
  | Rejected _ _ unread => unread
  | Waiting _ => []
  end.

(** Whether the loop came to its end. *)
Definition resolved (r : loop_end) : bool :=
  match r with
  | Resolved _ _ => true
  | _ => false
  end.

(** A progress bar drawn for a position of the candidate list. *)
Definition within_bounds (total : nat) (ev : event) : Prop :=
  match ev with
  | progress_bar current total' => (1 ≤ current ≤ total)%nat ∧ total' = total
  | _ => True
  end.

(** The four answers the [switch] of [askForFile] has a case for. *)
Definition is_answer (a : string) : bool :=
  String.eqb a "y" || String.eqb a "n" || String.eqb a "p" || String.eqb a "q".

(** An answer sequence without pattern requests, in normal form: lower
    case, and only the lines the loop acts on. *)
Definition plain_answers (lines : list string) : list string :=
  filter (λ a, Is_true (is_answer a)) (toLowerCase <$> lines).

(** The events of a stage of the program: anything but a call of
    [console.error], closing the prompt and leaving the process, which only
    [main] and the handler behind it do. *)
Definition ordinary (ev : event) : bool :=
  match ev with
  | console_error _ _ | rl_close | process_exit _ => false
  | _ => true
  end.

(** What [report] prints for an error. *)
Definition report_log (w : World) (error : thrown) : list event :=
  match error with
  | ErrorObj e =>
      console_error red (message e)
      :: (if flag (ArgvOptions.verbose (argv w)) then [console_error gray (stack e)] else [])
  | NonError text => [console_error red text]
  end.

(** The one file a run may write. *)
Definition target_path (rt : Runtime) (w : World) : string :=
  if flag (ArgvOptions.compress (argv w)) then
    path_join rt (cwd w) (ArgvOptions.output (argv w)) +:+ ".gz"
  else path_join rt (cwd w) (ArgvOptions.output (argv w)).

(** What a stage may do to its surroundings: add ordinary events to the
    trace, consume lines from the front of standard input, and write no
    file but the one at [target]. *)
Definition framed {A} (target : string) (m : prog A) : Prop :=
  ∀ s,
    (∃ tr, trace (m s).1 = (trace s ++ tr)%list ∧ Forall (λ ev, Is_true (ordinary ev)) tr)
    ∧ stdin (m s).1 `suffix_of` stdin s
    ∧ (∀ q, q ≠ target → disk (m s).1 !! q = disk s !! q).

(** The state a run starts in. *)
Definition boot (lines : list string) : io :=
  {| stdin := lines; trace := []; disk := ∅ |}.

(** The configuration a world leads to. *)
Definition configured (rt : Runtime) (w : World) : completion (gmap string json) :=
  (getConfiguration rt w (cwd w) (boot [])).2.

(** What [getAllFiles] shows when glob reports [files]. *)
Definition discovery_log (w : World) (dir : string) (config : CodeCopierConfig)
    (files : list string) : list event :=
  [spinner_start "Getting all files...";
   glob_call (join "|" (include config)) dir (exclude config);
   spinner_succeed green ("Found " +:+ pretty (length files) +:+ " files")]
  ++ (if (0 <? length files)%nat && flag (ArgvOptions.verbose (argv w)) then
        (console_log cyan "First few files found:"
         :: ((λ file, console_log gray ("- " +:+ file)) <$> take 5 files)
         ++ (if (5 <? length files)%nat then
               [console_log cyan ("... and " +:+ pretty (length files - 5) +:+ " more")]
             else []))%list
      else [])%list.

(** The scenario of the specification: a directory with [a.js] and
    [b.png], no configuration file, and a glob that understands the default
    include pattern (a path matches it when its extension is one of the
    ten of [languageMap]). *)
Definition default_include : string := "**/*.{js,ts,py,java,c,cpp,h,hpp,css,html}".

Definition scenario_runtime : Runtime :=
  {| path_join := path_join plain_runtime;
     path_resolve := path_resolve plain_runtime;
     JSON_parse := JSON_parse plain_runtime;
     minimatch := λ pattern path,
       if String.eqb pattern default_include then
         bool_decide (is_Some (languageMap !! slice1 (extname path)))
       else wildcard pattern path;
     glob_ignored := wildcard;
     picomatch := picomatch plain_runtime;
     gzip := gzip plain_runtime;
     stack_trace := stack_trace plain_runtime |}.

Definition scenario_project : World :=
  project default_args [("a.js", Some "console.log(1)"); ("b.png", Some "PNG")].

(** The document in the words of the specification.  The tag of a block
    comes from the extension of the file through the fixed table of ten
    entries, and is empty for every extension the table does not list. *)
Definition static_tag (ext : string) : string :=
  if String.eqb ext "js" then "javascript"
  else if String.eqb ext "ts" then "typescript"
  else if String.eqb ext "py" then "python"
  else if String.eqb ext "java" then "java"
  else if String.eqb ext "c" then "c"
  else if String.eqb ext "cpp" then "cpp"
  else if String.eqb ext "h" then "cpp"
  else if String.eqb ext "hpp" then "cpp"
  else if String.eqb ext "css" then "css"
  else if String.eqb ext "html" then "html"
  else EmptyString.

Definition expected_section (file text : string) : string :=
  "## File: " +:+ file +:+ nl +:+ nl
  +:+ fence +:+ static_tag (slice1 (extname file)) +:+ nl
  +:+ text +:+ nl
  +:+ fence +:+ nl +:+ nl.

Fixpoint expected_sections (files texts : list string) : string :=
  match files, texts with
  | file :: files, text :: texts =>
      expected_section file text +:+ expected_sections files texts
  | _, _ => EmptyString
  end.

Definition expected_document (files texts : list string) : string :=
  "# CodeCopier Output" +:+ nl +:+ nl +:+ expected_sections files texts.

(** A project with a file whose extension is the name of a method every
    object has. *)
Definition notes_project : World :=
  project default_args [("a.toString", Some "notes"); ("a.js", Some "console.log(1)")].

(** * Properties *)

(** ** The selection loop *)

Lemma askForFile_done rt files lines st :
  (length files ≤ index st)%nat →
  askForFile rt files lines st = Resolved (show (stdout_write nl) st) lines.
Proof.
  intros Hle. apply Nat.leb_le in Hle.
  destruct lines; simpl; rewrite Hle; reflexivity.
Qed.

Lemma askForFile_starved rt files st :
  (index st < length files)%nat →
  askForFile rt files [] st = Waiting (asking files st).
Proof.
  intros Hlt. apply Nat.leb_gt in Hlt. simpl. rewrite Hlt. reflexivity.
Qed.

Lemma askForFile_yes rt files answer lines st :
  (index st < length files)%nat →
  toLowerCase answer = "y" →
  askForFile rt files (answer :: lines) st =
  askForFile rt files lines
    {| selectedFiles := selectedFiles st ++ [default EmptyString (files !! index st)];
       index := index st + 1;
       shown := shown (asking files st) |}.
Proof.
  intros Hlt Ha. apply Nat.leb_gt in Hlt.
  cbn [askForFile]. rewrite Hlt, Ha. reflexivity.
Qed.

Lemma askForFile_no rt files answer lines st :
  (index st < length files)%nat →
  toLowerCase answer = "n" →
  askForFile rt files (answer :: lines) st =
  askForFile rt files lines
    {| selectedFiles := selectedFiles st;
       index := index st + 1;
       shown := shown (asking files st) |}.
Proof.
  intros Hlt Ha. apply Nat.leb_gt in Hlt.
  cbn [askForFile]. rewrite Hlt, Ha. reflexivity.
Qed.

Lemma askForFile_quit rt files answer lines st :
  (index st < length files)%nat →
  toLowerCase answer = "q" →
  askForFile rt files (answer :: lines) st =
  Resolved (show (stdout_write nl) (asking files st)) lines.
Proof.
  intros Hlt Ha. apply Nat.leb_gt in Hlt.
  cbn [askForFile]. rewrite Hlt, Ha. reflexivity.
Qed.

Lemma askForFile_pattern rt files answer pattern lines st matchedFiles :
  (index st < length files)%nat →
  toLowerCase answer = "p" →
  micromatch rt (drop (index st) files) pattern = inr matchedFiles →
  askForFile rt files (answer :: pattern :: lines) st =
  askForFile rt files lines
    {| selectedFiles := selectedFiles st ++ matchedFiles;
       index := index st + length matchedFiles;
       shown := shown (asking files st)
                ++ [rl_question cyan "Enter glob pattern: ";
                    console_log green
                      ("Added " +:+ pretty (length matchedFiles)
                       +:+ " files matching the pattern.")] |}.
Proof.
  intros Hlt Ha Hm. apply Nat.leb_gt in Hlt.
  cbn [askForFile]. rewrite Hlt, Ha. cbn [String.eqb Ascii.eqb Bool.eqb].
  cbn [show selectedFiles index shown]. rewrite Hm.
  f_equal. unfold asking, show. cbn [selectedFiles index shown].
  f_equal. rewrite <- !(assoc_L (++)). reflexivity.
Qed.

Lemma set_order_sublist seen items : set_order seen items `sublist_of` items.
Proof.
  revert seen. induction items as [|x items IH]; intros seen; simpl.
  - constructor.
  - case_bool_decide.
    + apply sublist_cons, IH.
    + apply sublist_skip, IH.
Qed.

Lemma set_order_fresh seen items x : x ∈ set_order seen items → x ∉ seen.
Proof.
  revert seen. induction items as [|y items IH]; intros seen; simpl.
  - intros H. inversion H.
  - case_bool_decide as Hy.
    + apply IH.
    + intros [->|Hin]%elem_of_cons; [assumption|].
      apply IH in Hin. set_solver.
Qed.

Lemma set_order_NoDup seen items : NoDup (set_order seen items).
Proof.
  revert seen. induction items as [|x items IH]; intros seen; simpl.
  - constructor.
  - case_bool_decide; [apply IH|].
    constructor; [|apply IH].
    intros Hin%set_order_fresh. set_solver.
Qed.

Lemma micromatch_sublist rt items pattern matched :
  micromatch rt items pattern = inr matched → matched `sublist_of` items.
Proof.
  unfold micromatch. destruct (picomatch rt pattern) as [e|isMatch]; [discriminate|].
  intros [= <-]. etrans; [apply set_order_sublist|apply sublist_filter].
Qed.

(** C1.  When the answer at cursor [i] is [p] and the pattern [P] is read
    next, the loop goes on with the selection extended by exactly
    [micromatch(files.slice(i), P)] and the cursor advanced by the number of
    files matched; the files matched stand in the order they have in the
    slice.  The state after the batch is what the loop is left with when
    nothing more is typed, and what it returns when [q] is typed next: the
    selection it had followed by the matches, and the cursor it had plus
    their number. *)
Theorem pattern_batch_appends_matches rt files answer P rest st matchedFiles :
  (index st < length files)%nat →
  toLowerCase answer = "p" →
  micromatch rt (drop (index st) files) P = inr matchedFiles →
  askForFile rt files (answer :: P :: rest) st =
  askForFile rt files rest
    {| selectedFiles := selectedFiles st ++ matchedFiles;
       index := index st + length matchedFiles;
       shown := shown (asking files st)
                ++ [rl_question cyan "Enter glob pattern: ";
                    console_log green
                      ("Added " +:+ pretty (length matchedFiles)
                       +:+ " files matching the pattern.")] |}
  ∧ selectedFiles (loop_state (askForFile rt files [answer; P] st))
    = (selectedFiles st ++ matchedFiles)%list
  ∧ index (loop_state (askForFile rt files [answer; P] st))
    = (index st + length matchedFiles)%nat
  ∧ (∀ quit more,
       toLowerCase quit = "q" →
       resolved (askForFile rt files (answer :: P :: quit :: more) st) = true
       ∧ selectedFiles (loop_state (askForFile rt files (answer :: P :: quit :: more) st))
         = (selectedFiles st ++ matchedFiles)%list
       ∧ index (loop_state (askForFile rt files (answer :: P :: quit :: more) st))
         = (index st + length matchedFiles)%nat)
  ∧ matchedFiles `sublist_of` drop (index st) files.
Proof.
  intros Hlt Ha Hm.
  set (st' := {| selectedFiles := selectedFiles st ++ matchedFiles;
                 index := index st + length matchedFiles;
                 shown := shown (asking files st)
                          ++ [rl_question cyan "Enter glob pattern: ";
                              console_log green
                                ("Added " +:+ pretty (length matchedFiles)
                                 +:+ " files matching the pattern.")] |}).
  assert (Hstep : ∀ more, askForFile rt files (answer :: P :: more) st
                          = askForFile rt files more st').
  { intros more. by apply askForFile_pattern. }
  split; [apply Hstep|]. rewrite !Hstep.
  split; [|split; [|split]].
  - destruct (decide (length files ≤ index st')%nat).
    + by rewrite askForFile_done.
    + by rewrite askForFile_starved by lia.
  - destruct (decide (length files ≤ index st')%nat).
    + by rewrite askForFile_done.
    + by rewrite askForFile_starved by lia.
  - intros quit more Hq. rewrite Hstep.
    destruct (decide (length files ≤ index st')%nat).
    + by rewrite askForFile_done.
    + by rewrite askForFile_quit by (done || lia).
  - by eapply micromatch_sublist.
Qed.

Lemma pattern_batch_appends_matches_witness :
  askForFile plain_runtime ["a.js"; "b.ts"; "c.js"; "d.js"] ["P"; "*.js"; "q"]
    {| selectedFiles := ["a.js"]; index := 1; shown := [] |} =
  askForFile plain_runtime ["a.js"; "b.ts"; "c.js"; "d.js"] ["q"]
    {| selectedFiles := ["a.js"; "c.js"; "d.js"];
       index := 3;
       shown := [progress_bar 2 4;
                 rl_question yellow (nl +:+ "Include b.ts? (y/n/p/q) ");
                 rl_question cyan "Enter glob pattern: ";
                 console_log green "Added 2 files matching the pattern."] |}
  ∧ selectedFiles (loop_state (askForFile plain_runtime ["a.js"; "b.ts"; "c.js"; "d.js"]
                                 ["P"; "*.js"]
                                 {| selectedFiles := ["a.js"]; index := 1; shown := [] |}))
    = ["a.js"; "c.js"; "d.js"]
  ∧ index (loop_state (askForFile plain_runtime ["a.js"; "b.ts"; "c.js"; "d.js"]
                         ["P"; "*.js"]
                         {| selectedFiles := ["a.js"]; index := 1; shown := [] |})) = 3%nat
  ∧ (∀ quit more,
       toLowerCase quit = "q" →
       resolved (askForFile plain_runtime ["a.js"; "b.ts"; "c.js"; "d.js"]
                   ("P" :: "*.js" :: quit :: more)
                   {| selectedFiles := ["a.js"]; index := 1; shown := [] |}) = true
       ∧ selectedFiles (loop_state (askForFile plain_runtime ["a.js"; "b.ts"; "c.js"; "d.js"]
                                      ("P" :: "*.js" :: quit :: more)
                                      {| selectedFiles := ["a.js"]; index := 1;
                                         shown := [] |}))
         = ["a.js"; "c.js"; "d.js"]
       ∧ index (loop_state (askForFile plain_runtime ["a.js"; "b.ts"; "c.js"; "d.js"]
                              ("P" :: "*.js" :: quit :: more)
                              {| selectedFiles := ["a.js"]; index := 1; shown := [] |}))
         = 3%nat)
  ∧ ["c.js"; "d.js"] `sublist_of` ["b.ts"; "c.js"; "d.js"].
Proof.
  apply (pattern_batch_appends_matches plain_runtime
           ["a.js"; "b.ts"; "c.js"; "d.js"] "P" "*.js" ["q"]
           {| selectedFiles := ["a.js"]; index := 1; shown := [] |}
           ["c.js"; "d.js"]).
  - simpl; lia.
  - reflexivity.
  - reflexivity.
Defined.

Lemma accepted_nil_r files : accepted files [] = [].
Proof. by destruct files. Qed.

Lemma accepted_sublist files answers : accepted files answers `sublist_of` files.
Proof.
  revert answers. induction files as [|file files IH]; intros [|answer answers]; simpl;
    try apply sublist_nil_l.
  destruct (String.eqb answer "y"); [apply sublist_skip|apply sublist_cons]; apply IH.
Qed.

Lemma askForFile_yes_no_prefix rt files answers more : ∀ st,
  (index st + length answers ≤ length files)%nat →
  Forall (λ answer, answer = "y" ∨ answer = "n") answers →
  ∃ sh,
    askForFile rt files (answers ++ more) st =
    askForFile rt files more
      {| selectedFiles := selectedFiles st ++ accepted (drop (index st) files) answers;
         index := index st + length answers;
         shown := sh |}.
Proof.
  induction answers as [|answer answers IH]; intros st Hle Hyn.
  - rewrite accepted_nil_r, app_nil_r, Nat.add_0_r. destruct st. eexists. reflexivity.
  - simpl in Hle. assert (Hlt : (index st < length files)%nat) by lia.
    destruct (lookup_lt_is_Some_2 files (index st) Hlt) as [file Hfile].
    rewrite (drop_S _ _ _ Hfile). apply Forall_cons in Hyn as [Ha Hyn].
    rewrite <- app_comm_cons.
    destruct Ha as [-> | ->].
    + rewrite askForFile_yes by done.
      destruct (IH {| selectedFiles := selectedFiles st ++ [default EmptyString (files !! index st)];
                      index := index st + 1;
                      shown := shown (asking files st) |}) as [sh Hsh];
        [simpl; lia | done |].
      rewrite Hsh. cbn [selectedFiles index]. rewrite Hfile. simpl.
      rewrite Nat.add_1_r, <- (assoc_L (++)), <- Nat.add_succ_comm.
      eexists. reflexivity.
    + rewrite askForFile_no by done.
      destruct (IH {| selectedFiles := selectedFiles st;
                      index := index st + 1;
                      shown := shown (asking files st) |}) as [sh Hsh];
        [simpl; lia | done |].
      rewrite Hsh. cbn [selectedFiles index]. simpl.
      rewrite Nat.add_1_r, <- Nat.add_succ_comm. eexists. reflexivity.
Qed.

Lemma askForFile_yes_no rt files answers : ∀ st,
  (index st ≤ length files)%nat →
  length answers = (length files - index st)%nat →
  Forall (λ answer, answer = "y" ∨ answer = "n") answers →
  ∃ sh,
    askForFile rt files answers st =
    Resolved {| selectedFiles := selectedFiles st ++ accepted (drop (index st) files) answers;
                index := length files;
                shown := sh |} [].
Proof.
  intros st Hle Hlen Hyn.
  destruct (askForFile_yes_no_prefix rt files answers [] st) as [sh Hsh]; [lia | done |].
  rewrite app_nil_r in Hsh. rewrite Hsh, askForFile_done by (simpl; lia).
  cbn [show selectedFiles index shown].
  replace (index st + length answers)%nat with (length files) by lia.
  eexists. reflexivity.
Qed.

(** Entering [q] after [i] answers [y] or [n] returns the candidates
    answered [y] among the first [i], and leaves the following lines
    unread. *)
Lemma quit_after_yes_no rt files answers quit rest :
  (length answers < length files)%nat →
  Forall (λ answer, answer = "y" ∨ answer = "n") answers →
  toLowerCase quit = "q" →
  ∃ sh,
    askForFile rt files (answers ++ quit :: rest) fresh =
    Resolved {| selectedFiles := accepted (take (length answers) files) answers;
                index := length answers;
                shown := sh |} rest.
Proof.
  intros Hlt Hyn Hq.
  destruct (askForFile_yes_no_prefix rt files answers (quit :: rest) fresh) as [sh Hsh];
    [simpl; lia | done |].
  rewrite Hsh, askForFile_quit; [|simpl; lia|done].
  cbn [show asking selectedFiles index shown fresh]. simpl.
  assert (Hacc : ∀ (fs ans : list string),
             accepted (take (length ans) fs) ans = accepted fs ans).
  { clear. intros fs ans. revert fs. induction ans as [|a ans IH]; intros [|f fs]; simpl; try done.
    rewrite IH. reflexivity. }
  rewrite Hacc. eexists. reflexivity.
Qed.

(** C5.  With [N] candidates and [N] answers, each [y] or [n],
    [selectFiles] returns exactly the candidates answered [y], in the order
    of the candidate list, having read all the answers. *)
Theorem yes_no_answers_select rt files answers s :
  stdin s = answers →
  length answers = length files →
  Forall (λ answer, answer = "y" ∨ answer = "n") answers →
  (selectFiles rt files s).2 = Normal (accepted files answers)
  ∧ stdin (selectFiles rt files s).1 = [].
Proof.
  intros Hin Hlen Hyn.
  destruct (askForFile_yes_no rt files answers fresh) as [sh Hsh];
    [simpl; lia | simpl; lia | done |].
  unfold selectFiles, bind, emit. cbn [stdin]. rewrite Hin, Hsh.
  split; reflexivity.
Qed.

Lemma yes_no_answers_select_witness :
  (selectFiles plain_runtime ["a.js"; "b.ts"; "c.js"]
     {| stdin := ["y"; "n"; "y"]; trace := []; disk := ∅ |}).2
  = Normal ["a.js"; "c.js"]
  ∧ stdin (selectFiles plain_runtime ["a.js"; "b.ts"; "c.js"]
             {| stdin := ["y"; "n"; "y"]; trace := []; disk := ∅ |}).1 = [].
Proof.
  apply (yes_no_answers_select plain_runtime ["a.js"; "b.ts"; "c.js"] ["y"; "n"; "y"]
           {| stdin := ["y"; "n"; "y"]; trace := []; disk := ∅ |}).
  - reflexivity.
  - reflexivity.
  - apply Forall_cons; split; [left; reflexivity|].
    apply Forall_cons; split; [right; reflexivity|].
    apply Forall_cons; split; [left; reflexivity|].
    apply Forall_nil; exact I.
Defined.

(** C2.  The loop run on three candidates of which the first and the
    third match the pattern: the batch appends both and moves the cursor by
    two, onto the third candidate, which is then asked about and, answered
    [y], appended a second time.  The selection returned repeats a file
    and is not a subsequence of the candidate list. *)
Theorem pattern_batch_selects_file_twice :
  (selectFiles plain_runtime ["a.js"; "b.ts"; "c.js"]
     {| stdin := ["p"; "*.js"; "y"]; trace := []; disk := ∅ |}).2
  = Normal ["a.js"; "c.js"; "c.js"]
  ∧ NoDup ["a.js"; "b.ts"; "c.js"]
  ∧ ¬ NoDup ["a.js"; "c.js"; "c.js"]
  ∧ ¬ ["a.js"; "c.js"; "c.js"] `sublist_of` ["a.js"; "b.ts"; "c.js"].
Proof.
  assert (Hfiles : NoDup ["a.js"; "b.ts"; "c.js"]).
  { apply (bool_decide_unpack _). vm_compute. exact I. }
  assert (Hsel : ¬ NoDup ["a.js"; "c.js"; "c.js"]).
  { apply (bool_decide_eq_false_1 _). vm_compute. reflexivity. }
  split; [reflexivity|]. repeat split; try assumption.
  intros Hsub. apply Hsel. eapply sublist_NoDup; eassumption.
Qed.

(** C6.  After the same pattern batch the cursor stands on the third
    candidate, already selected by the batch; [q] entered there returns a
    selection that contains the candidate under the cursor, a file that
    occurs at no position before the cursor.  The line after [q] is left
    unread. *)
Theorem quit_after_pattern_batch_keeps_current_file :
  ∃ sh,
    askForFile plain_runtime ["a.js"; "b.ts"; "c.js"] ["p"; "*.js"; "q"; "y"] fresh
    = Resolved {| selectedFiles := ["a.js"; "c.js"]; index := 2; shown := sh |} ["y"]
    ∧ ["a.js"; "b.ts"; "c.js"] !! 2%nat = Some "c.js"
    ∧ "c.js" ∈ ["a.js"; "c.js"]
    ∧ "c.js" ∉ take 2 ["a.js"; "b.ts"; "c.js"].
Proof.
  eexists. split; [reflexivity|]. split; [reflexivity|]. split.
  - apply (bool_decide_unpack _). vm_compute. exact I.
  - apply (bool_decide_eq_false_1 _). vm_compute. reflexivity.
Qed.

(** ** Configuration *)






Lemma string_items_view items :
  existsb (λ pattern, negb (is_string pattern)) items = false →
  is_Some (mapM (λ x, match x with JString s => Some s | _ => None end) items).
Proof.
  induction items as [|x items IH]; simpl; [by eexists|].
  destruct x; simpl; try discriminate.
  intros [strings ->]%IH. by eexists.
Qed.

(** A configuration [validateConfig] accepts has the shape of
    [CodeCopierConfig]; so has every configuration [getConfiguration]
    returns, and [main] always reaches [getAllFiles] with one. *)
Lemma validateConfig_view rt config :
  validateConfig rt config = inr tt → is_Some (config_view config).
Proof.
  unfold validateConfig, config_view, string_array.
  destruct (config !! "exclude") as [[| | | |ex|]|], (config !! "include") as [[| | | |inc|]|];
    cbn [isArray elements negb orb]; try discriminate.
  destruct (existsb _ ex) eqn:Hex; [discriminate|].
  destruct (existsb _ inc) eqn:Hinc; [discriminate|]. intros _.
  destruct (string_items_view _ Hex) as [e ->], (string_items_view _ Hinc) as [i ->].
  by eexists.
Qed.

Lemma getConfiguration_view rt w rootPath s config :
  (getConfiguration rt w rootPath s).2 = Normal config → is_Some (config_view config).
Proof.
  unfold getConfiguration, bind, emit, try_catch, lift, ret, throw.
  destruct (existsSync w (configPath_of rt w rootPath)); cbn [stdin trace disk].
  - destruct (readFileSync w (configPath_of rt w rootPath)) as [[e|text]|content];
      try discriminate.
    destruct (JSON_parse rt content) as [[e|text]|parsed]; try discriminate.
    destruct (validateConfig rt (spread defaultConfig (own_props parsed)))
      as [[e|text]|[]] eqn:Hvalid; try discriminate.
    intros [= <-]. by eapply validateConfig_view.
  - intros [= <-]. by eexists.
Qed.



(** ** Failures and the exit code *)

Lemma report_returns w error s : ∃ s', report w error s = (s', Normal tt).
Proof.
  destruct error as [e|text]; unfold report, bind, emit, ret.
  - destruct (flag (ArgvOptions.verbose (argv w))); eexists; reflexivity.
  - eexists; reflexivity.
Qed.

Lemma try_catch_handled {A} (body : prog A) (handler : thrown → prog A) s :
  (∀ error s1, ∃ s2 a, handler error s1 = (s2, Normal a)) →
  ∀ error, (try_catch body handler s).2 ≠ Abrupt error.
Proof.
  intros Hh error. unfold try_catch.
  destruct (body s) as [s1 [a|e|]]; simpl; try discriminate.
  destruct (Hh e s1) as (s2 & a & ->). discriminate.
Qed.

Lemma try_finally_emit {A} (body : prog A) ev s :
  (try_finally body (emit ev) s).2 = (body s).2.
Proof.
  unfold try_finally, emit. by destruct (body s) as [s1 [a|e|]].
Qed.

(** The promise of [main] is never rejected: whatever is thrown inside its
    [try] block is handled by its [catch] clause. *)
Lemma main_never_rejects rt w s error : (main rt w s).2 ≠ Abrupt error.
Proof.
  unfold main, bind at 1. unfold emit at 1.
  rewrite try_finally_emit. apply try_catch_handled.
  intros e s1. unfold bind, emit.
  destruct (report_returns w e
              {| stdin := stdin s1;
                 trace := trace s1 ++ [console_error red "An error occurred:"];
                 disk := disk s1 |}) as [s2 Hs2].
  exists s2, tt. exact Hs2.
Qed.

Lemma run_ending rt w lines :
  (run rt w lines).2 = exit 0 ∨ (run rt w lines).2 = stalled.
Proof.
  unfold run.
  pose proof (main_never_rejects rt w {| stdin := lines; trace := []; disk := ∅ |}) as Hno.
  destruct (main rt w {| stdin := lines; trace := []; disk := ∅ |}) as [s [a|e|]]; simpl.
  - by left.
  - by destruct (Hno e).
  - by right.
Qed.

(** C3.  A configuration file whose [exclude] is a string is a fatal
    failure: the program prints the error and closes the prompt, and the
    process then ends with exit code 0.  No run ends with another exit
    code: the handler that calls [process.exit(1)] is attached to a promise
    that is never rejected. *)
Theorem fatal_failure_exits_with_code_zero :
  run plain_runtime bad_exclude_project ["y"] =
  ({| stdin := ["y"];
      trace := [console_log blue "CodeCopier is starting...";
                console_log blue "Working in directory: /proj";
                console_log blue "Getting configuration...";
                console_log green "Configuration file found at: /proj/.codecopierrc.json";
                console_error red "An error occurred:";
                console_error red ("Error reading or parsing configuration file: "
                                   +:+ must_be_arrays);
                rl_close];
      disk := ∅ |},
   exit 0)
  ∧ ∀ rt w lines, (run rt w lines).2 = exit 0 ∨ (run rt w lines).2 = stalled.
Proof.
  split; [reflexivity|]. apply run_ending.
Qed.

(** ** Discovery *)

(** With one include pattern the pattern given to glob is that pattern,
    and [getAllFiles] returns what the contract asks for. *)
Lemma getAllFiles_one_include rt w dir pattern ex entries s :
  walk w dir = inr entries →
  (getAllFiles rt w dir {| exclude := ex; include := [pattern] |} s).2 =
  Normal (discovery_contract rt {| exclude := ex; include := [pattern] |} entries).
Proof.
  intros Hwalk. unfold getAllFiles, glob, discovery_contract, bind, emit.
  cbn [include exclude join existsb]. rewrite Hwalk. cbn [andb].
  rewrite (list_filter_iff
             (λ entry : string * bool,
                Is_true ((minimatch rt pattern entry.1 || false)
                         && negb (existsb (λ ig, glob_ignored rt ig entry.1) ex)
                         && negb entry.2))
             (λ entry : string * bool,
                Is_true (minimatch rt pattern entry.1
                         && negb (existsb (λ ig, glob_ignored rt ig entry.1) ex)
                         && negb entry.2)) entries);
    [|intros entry; by rewrite orb_false_r].
  match goal with |- context [set_order [] ?l] => generalize (set_order [] l) end.
  intros files. unfold ret.
  destruct ((0 <? length files)%nat && flag (ArgvOptions.verbose (argv w))); [|reflexivity].
  cbn [stdin trace disk].
  match goal with |- context [emit_all ?evs ?st] => generalize st; generalize evs end.
  intros evs. induction evs as [|ev evs IH]; intros st; simpl.
  - destruct (5 <? length files)%nat; reflexivity.
  - unfold bind, emit in *. cbn [stdin trace disk]. apply IH.
Qed.

(** Discovery reports no path twice. *)
Lemma glob_NoDup rt w pattern dir ignore nodir files :
  glob rt w pattern dir ignore nodir = inr files → NoDup files.
Proof.
  unfold glob. destruct (walk w dir) as [err|entries]; [discriminate|].
  intros [= <-]. apply set_order_NoDup.
Qed.

(** C4.  A configuration with the include patterns [*.js] and [*.ts], in
    a directory that holds [a.js] and [b.ts]: each file matches one of the
    include patterns and no exclude pattern, yet glob is called with the
    single pattern [*.js|*.ts], which matches neither, and discovery
    returns the empty list. *)
Theorem two_include_patterns_discover_nothing :
  config_view (spread defaultConfig (own_props (JObject
                 {[ "include" := JArray [JString "*.js"; JString "*.ts"] ]})))
  = Some {| exclude := ["node_modules/**"; ".git/**"]; include := ["*.js"; "*.ts"] |}
  ∧ getAllFiles plain_runtime two_includes_project "/proj"
      {| exclude := ["node_modules/**"; ".git/**"]; include := ["*.js"; "*.ts"] |}
      {| stdin := []; trace := []; disk := ∅ |}
    = ({| stdin := [];
          trace := [spinner_start "Getting all files...";
                    glob_call "*.js|*.ts" "/proj" ["node_modules/**"; ".git/**"];
                    spinner_succeed green "Found 0 files"];
          disk := ∅ |},
       Normal [])
  ∧ walk two_includes_project "/proj"
    = inr [(".codecopierrc.json", false); ("a.js", false); ("b.ts", false)]
  ∧ discovery_contract plain_runtime
      {| exclude := ["node_modules/**"; ".git/**"]; include := ["*.js"; "*.ts"] |}
      [(".codecopierrc.json", false); ("a.js", false); ("b.ts", false)]
    = ["a.js"; "b.ts"].
Proof.
  repeat split; reflexivity.
Qed.

(** ** The output document *)

Lemma append_assoc (a b c : string) : (a +:+ b) +:+ c = a +:+ (b +:+ c).
Proof.
  induction a as [|x a IH]; [reflexivity|].
  exact (f_equal (String x) IH).
Qed.

Lemma append_empty_r (a : string) : a +:+ EmptyString = a.
Proof.
  induction a as [|x a IH]; [reflexivity|].
  exact (f_equal (String x) IH).
Qed.

Lemma collect_each_reads rt w rootPath total files texts :
  Forall2 (λ file text, readFileSync w (path_join rt rootPath file) = inr text) files texts →
  ∀ index output s,
    ∃ s', collect_each rt w rootPath total index files output s
          = (s', Normal (output +:+ sections files texts))
          ∧ stdin s' = stdin s ∧ disk s' = disk s.
Proof.
  induction 1 as [|file text files texts Hread _ IH]; intros index output s.
  - exists s. simpl. rewrite append_empty_r. done.
  - cbn [collect_each]. unfold bind at 1. unfold emit at 1.
    unfold bind at 1. rewrite Hread. cbn [lift ret].
    match goal with
    | |- context [collect_each rt w rootPath total ?i files ?o ?st] =>
        destruct (IH i o st) as (s' & -> & Hin & Hdisk)
    end.
    exists s'. split; [|done].
    cbn [sections]. unfold section_of.
    rewrite !append_assoc. reflexivity.
Qed.

Lemma languageMap_tag ext tag :
  languageMap !! ext = Some tag → tag ≠ EmptyString ∧ toLowerCase ext = ext.
Proof.
  intros Hin%elem_of_list_to_map_2.
  repeat (apply elem_of_cons in Hin as [[= -> ->]|Hin]; [by split|]).
  inversion Hin.
Qed.

(** When every selected file can be read, [collectCode] returns the
    title followed by one section per file, in the order of the selection:
    the header with the path, the fence with the tag of the extension, the
    text as read, the closing fence and an empty line.  An extension that
    [languageMap] has is tagged with its entry.  For the one file [a.js]
    holding [console.log(1)] the document is the expected text. *)
Theorem collectCode_document rt w rootPath files texts s :
  Forall2 (λ file text, readFileSync w (path_join rt rootPath file) = inr text) files texts →
  (collectCode rt w rootPath files s).2 = Normal (title +:+ sections files texts)
  ∧ (∀ file tag,
       languageMap !! slice1 (extname file) = Some tag →
       to_string (getFileExtension file) = tag)
  ∧ title +:+ sections ["a.js"] ["console.log(1)"]
    = "# CodeCopier Output" +:+ nl +:+ nl
      +:+ "## File: a.js" +:+ nl +:+ nl
      +:+ "```javascript" +:+ nl
      +:+ "console.log(1)" +:+ nl
      +:+ "```" +:+ nl +:+ nl.
Proof.
  intros Hread. split; [|split].
  - unfold collectCode, bind at 1. unfold emit at 1.
    unfold bind at 1. unfold emit at 1. unfold bind at 1.
    match goal with
    | |- context [collect_each rt w rootPath ?t ?i files ?o ?st] =>
        destruct (collect_each_reads rt w rootPath t files texts Hread i o st)
          as (s' & -> & _ & _)
    end.
    reflexivity.
  - intros file tag Htag. unfold getFileExtension. rewrite Htag.
    destruct (languageMap_tag _ _ Htag) as [Hne _].
    destruct (String.eqb_spec tag EmptyString); [done|reflexivity].
  - reflexivity.
Qed.

Lemma collectCode_document_witness :
  (collectCode plain_runtime bad_exclude_project "/proj" ["a.js"]
     {| stdin := []; trace := []; disk := ∅ |}).2
  = Normal ("# CodeCopier Output" +:+ nl +:+ nl
            +:+ "## File: a.js" +:+ nl +:+ nl
            +:+ "```javascript" +:+ nl
            +:+ "console.log(1)" +:+ nl
            +:+ "```" +:+ nl +:+ nl).
Proof.
  apply (collectCode_document plain_runtime bad_exclude_project "/proj"
           ["a.js"] ["console.log(1)"]).
  apply Forall2_cons; split; [reflexivity|]. apply Forall2_nil; exact I.
Defined.

Lemma static_tag_owned ext tag : languageMap !! ext = Some tag → static_tag ext = tag.
Proof.
  intros Hin%elem_of_list_to_map_2.
  repeat (apply elem_of_cons in Hin as [[= -> ->]|Hin]; [reflexivity|]).
  inversion Hin.
Qed.

Lemma static_tag_other ext : languageMap !! ext = None → static_tag ext = EmptyString.
Proof.
  intros Hnone. unfold static_tag.
  repeat match goal with
         | |- context [String.eqb ext ?k] =>
             destruct (String.eqb_spec ext k) as [->|_]; [discriminate Hnone|]
         end.
  reflexivity.
Qed.

(** Away from the names [Object.prototype] has, the tag of the code is the
    tag of the table. *)
Lemma getFileExtension_static file :
  slice1 (extname file) ∉ Object_prototype →
  to_string (getFileExtension file) = static_tag (slice1 (extname file)).
Proof.
  intros Hproto. unfold getFileExtension.
  destruct (languageMap !! slice1 (extname file)) as [tag|] eqn:Htag.
  - rewrite (static_tag_owned _ _ Htag).
    destruct (languageMap_tag _ _ Htag) as [Hne _].
    by destruct (String.eqb_spec tag EmptyString).
  - rewrite (static_tag_other _ Htag), bool_decide_eq_false_2 by done. reflexivity.
Qed.

Lemma sections_expected files : ∀ texts,
  Forall (λ file, slice1 (extname file) ∉ Object_prototype) files →
  sections files texts = expected_sections files texts.
Proof.
  induction files as [|file files IH]; intros [|text texts] Hfiles; try reflexivity.
  apply Forall_cons in Hfiles as [Hfile Hfiles]. cbn [sections expected_sections].
  unfold section_of, expected_section. by rewrite IH, getFileExtension_static.
Qed.

(** For a selection none of whose extensions is a name [Object.prototype]
    has, [collectCode] returns the document of the specification. *)
Lemma collectCode_expected_document rt w rootPath files texts s :
  Forall2 (λ file text, readFileSync w (path_join rt rootPath file) = inr text) files texts →
  Forall (λ file, slice1 (extname file) ∉ Object_prototype) files →
  (collectCode rt w rootPath files s).2 = Normal (expected_document files texts).
Proof.
  intros Hread Hfiles.
  destruct (collectCode_document rt w rootPath files texts s Hread) as [-> _].
  unfold expected_document, title. by rewrite sections_expected, append_assoc.
Qed.

(** C8.  The document of the selection [a.toString]: the specification
    asks for a block without a tag, [toString] not being in the table; the
    fence [collectCode] writes carries the text of the method
    [Object.prototype.toString], which the lookup in [languageMap] finds.
    For [a.js] the document is the one expected. *)
Theorem inherited_property_tags_the_block :
  (collectCode plain_runtime notes_project "/proj" ["a.toString"] (boot [])).2
  = Normal ("# CodeCopier Output" +:+ nl +:+ nl
            +:+ "## File: a.toString" +:+ nl +:+ nl
            +:+ "```function toString() { [native code] }" +:+ nl
            +:+ "notes" +:+ nl
            +:+ "```" +:+ nl +:+ nl)
  ∧ expected_document ["a.toString"] ["notes"]
    = "# CodeCopier Output" +:+ nl +:+ nl
      +:+ "## File: a.toString" +:+ nl +:+ nl
      +:+ "```" +:+ nl
      +:+ "notes" +:+ nl
      +:+ "```" +:+ nl +:+ nl
  ∧ (collectCode plain_runtime notes_project "/proj" ["a.toString"] (boot [])).2
    ≠ Normal (expected_document ["a.toString"] ["notes"])
  ∧ (collectCode plain_runtime notes_project "/proj" ["a.js"] (boot [])).2
    = Normal (expected_document ["a.js"] ["console.log(1)"])
  ∧ expected_document ["a.js"] ["console.log(1)"]
    = "# CodeCopier Output" +:+ nl +:+ nl
      +:+ "## File: a.js" +:+ nl +:+ nl
      +:+ "```javascript" +:+ nl
      +:+ "console.log(1)" +:+ nl
      +:+ "```" +:+ nl +:+ nl.
Proof.
  split; [reflexivity|]. split; [reflexivity|]. split; [|split; reflexivity].
  intros Heq. vm_compute in Heq. discriminate Heq.
Qed.

(** ** Writing the document *)

(** C9.  For a decompressor that inverts the compressor, and an output
    file that can be written: without the compress flag [writeOutput] puts
    the document itself at the output path; with the flag it puts the
    compressed document at the output path followed by [.gz], and
    decompressing what was written gives the document back. *)
Theorem writeOutput_round_trip rt w (gunzip : string → option string)
    (content outputPath : string) (compress : bool) s :
  (∀ text data : string, gzip rt text = inr data → gunzip data = Some text) →
  write_error w (if compress then outputPath +:+ ".gz" else outputPath) = None →
  (compress = true → ∃ data, gzip rt content = inr data) →
  ∃ s',
    (writeOutput rt w content outputPath compress s).1 = s'
    ∧ (writeOutput rt w content outputPath compress s).2 = Normal tt
    ∧ if compress then
        ∃ data,
          gzip rt content = inr data
          ∧ disk s' = <[outputPath +:+ ".gz" := data]> (disk s)
          ∧ disk s' !! (outputPath +:+ ".gz") = Some data
          ∧ gunzip data = Some content
      else
        disk s' = <[outputPath := content]> (disk s)
        ∧ disk s' !! outputPath = Some content.
Proof.
  intros Hinv Hwrite Hgzip. eexists. split; [reflexivity|].
  unfold writeOutput. destruct compress.
  - destruct (Hgzip eq_refl) as [data Hdata].
    unfold bind, compressOutput, writeFileSync, emit, ret.
    rewrite Hdata, Hwrite. cbn [fst snd stdin trace disk].
    split; [reflexivity|]. exists data.
    split; [done|]. split; [reflexivity|]. split; [apply lookup_insert_eq|].
    by apply Hinv.
  - unfold bind, writeFileSync, emit. rewrite Hwrite. cbn [fst snd stdin trace disk].
    split; [reflexivity|]. split; [reflexivity|]. apply lookup_insert_eq.
Qed.

Lemma writeOutput_round_trip_witness :
  ∃ s',
    (writeOutput plain_runtime bad_exclude_project "# CodeCopier Output" "/proj/out.md" true
       {| stdin := []; trace := []; disk := ∅ |}).1 = s'
    ∧ (writeOutput plain_runtime bad_exclude_project "# CodeCopier Output" "/proj/out.md" true
       {| stdin := []; trace := []; disk := ∅ |}).2 = Normal tt
    ∧ ∃ data,
        gzip plain_runtime "# CodeCopier Output" = inr data
        ∧ disk s' = <["/proj/out.md.gz" := data]> ∅
        ∧ disk s' !! "/proj/out.md.gz" = Some data
        ∧ unstore data = Some "# CodeCopier Output".
Proof.
  apply (writeOutput_round_trip plain_runtime bad_exclude_project unstore
           "# CodeCopier Output" "/proj/out.md" true
           {| stdin := []; trace := []; disk := ∅ |}).
  - intros text data Hdata. simpl in Hdata. injection Hdata as <-. reflexivity.
  - reflexivity.
  - intros _. eexists. reflexivity.
Defined.

(** ** The language tag *)

Lemma extname_loop_no_dot rev_path : ∀ i v,
  "."%char ∉ rev_path → startDot v = (-1)%Z →
  startDot (extname_loop rev_path i v) = (-1)%Z.
Proof.
  induction rev_path as [|code rest IH]; intros i v Hno Hv; simpl; [done|].
  apply not_elem_of_cons in Hno as [Hne Hno].
  destruct (Ascii.eqb code "/").
  - destruct (negb (matchedSlash v)); [done|]. by apply IH.
  - apply IH; [done|].
    destruct (Ascii.eqb_spec code "."); [congruence|].
    rewrite Hv. destruct (end_ v =? -1)%Z; simpl; by rewrite ?Hv.
Qed.

(** A path without a dot has no extension. *)
Lemma extname_no_dot path :
  "."%char ∉ String.list_ascii_of_string path → extname path = EmptyString.
Proof.
  intros Hno. unfold extname.
  rewrite extname_loop_no_dot; [reflexivity| |reflexivity].
  by rewrite elem_of_reverse.
Qed.

(** An extension that [languageMap] does not own and [Object.prototype]
    does not have gets the empty tag; an extension with a capital letter
    is not owned by [languageMap]. *)
Lemma getFileExtension_unmapped file :
  languageMap !! slice1 (extname file) = None →
  slice1 (extname file) ∉ Object_prototype →
  getFileExtension file = str EmptyString.
Proof.
  intros Hmap Hproto. unfold getFileExtension. rewrite Hmap.
  by rewrite bool_decide_eq_false_2.
Qed.

Lemma getFileExtension_capital file :
  toLowerCase (slice1 (extname file)) ≠ slice1 (extname file) →
  slice1 (extname file) ∉ Object_prototype →
  getFileExtension file = str EmptyString.
Proof.
  intros Hcap Hproto. apply getFileExtension_unmapped; [|done].
  destruct (languageMap !! slice1 (extname file)) as [tag|] eqn:Htag; [|done].
  by destruct (languageMap_tag _ _ Htag) as [_ Hlow].
Qed.

Lemma getFileExtension_no_dot file :
  "."%char ∉ String.list_ascii_of_string file →
  getFileExtension file = str EmptyString.
Proof.
  intros Hno. unfold getFileExtension. rewrite extname_no_dot by done. reflexivity.
Qed.

(** C10.  The extension of [a.toString] is mixed-case and [languageMap]
    does not own it, but the lookup [languageMap[ext]] finds the method
    [toString] every object inherits: [getFileExtension] returns that
    function, not the empty string, and the fence line carries its text.
    The extension of [a.JS] and the missing extension of [Makefile] do get
    the empty tag. *)
Theorem mixed_case_extension_finds_inherited_property :
  extname "a.toString" = ".toString"
  ∧ languageMap !! "toString" = None
  ∧ getFileExtension "a.toString" = inherited "toString"
  ∧ to_string (getFileExtension "a.toString") = "function toString() { [native code] }"
  ∧ getFileExtension "a.JS" = str EmptyString
  ∧ getFileExtension "Makefile" = str EmptyString.
Proof.
  repeat split; reflexivity.
Qed.

(** * Further properties *)

(** ** The selection loop, case by case *)

Lemma askForFile_invalid rt files answer lines st :
  (index st < length files)%nat →
  is_answer (toLowerCase answer) = false →
  askForFile rt files (answer :: lines) st =
  askForFile rt files lines
    (show (console_log red "Invalid input. Please enter y, n, p, or q.")
       (asking files st)).
Proof.
  intros Hlt Ha. apply Nat.leb_gt in Hlt. unfold is_answer in Ha.
  apply orb_false_elim in Ha as [Ha Hq]. apply orb_false_elim in Ha as [Ha Hp].
  apply orb_false_elim in Ha as [Hy Hn].
  cbn [askForFile]. rewrite Hlt, Hy, Hn, Hp, Hq. reflexivity.
Qed.

Lemma askForFile_pattern_starved rt files answer st :
  (index st < length files)%nat →
  toLowerCase answer = "p" →
  askForFile rt files [answer] st =
  Waiting (show (rl_question cyan "Enter glob pattern: ") (asking files st)).
Proof.
  intros Hlt Ha. apply Nat.leb_gt in Hlt.
  cbn [askForFile]. rewrite Hlt, Ha. reflexivity.
Qed.

Lemma askForFile_pattern_rejected rt files answer pattern lines st error :
  (index st < length files)%nat →
  toLowerCase answer = "p" →
  micromatch rt (drop (index st) files) pattern = inl error →
  askForFile rt files (answer :: pattern :: lines) st =
  Rejected error (show (rl_question cyan "Enter glob pattern: ") (asking files st)) lines.
Proof.
  intros Hlt Ha Hm. apply Nat.leb_gt in Hlt.
  cbn [askForFile]. rewrite Hlt, Ha. cbn [String.eqb Ascii.eqb Bool.eqb].
  cbn [show selectedFiles index shown]. rewrite Hm. reflexivity.
Qed.

Section askForFile_cases.
Context (rt : Runtime) (files : list string).
Context (P : selecting → list string → loop_end → Prop).

Hypothesis case_done : ∀ st lines,
  (length files ≤ index st)%nat →
  P st lines (Resolved (show (stdout_write nl) st) lines).
Hypothesis case_starved : ∀ st,
  (index st < length files)%nat →
  P st [] (Waiting (asking files st)).
Hypothesis case_yes : ∀ st answer lines r,
  (index st < length files)%nat → toLowerCase answer = "y" →
  P {| selectedFiles := selectedFiles st ++ [default EmptyString (files !! index st)];
       index := index st + 1;
       shown := shown (asking files st) |} lines r →
  P st (answer :: lines) r.
Hypothesis case_no : ∀ st answer lines r,
  (index st < length files)%nat → toLowerCase answer = "n" →
  P {| selectedFiles := selectedFiles st;
       index := index st + 1;
       shown := shown (asking files st) |} lines r →
  P st (answer :: lines) r.
Hypothesis case_pattern_starved : ∀ st answer,
  (index st < length files)%nat → toLowerCase answer = "p" →
  P st [answer]
    (Waiting (show (rl_question cyan "Enter glob pattern: ") (asking files st))).
Hypothesis case_pattern_rejected : ∀ st answer pattern lines error,
  (index st < length files)%nat → toLowerCase answer = "p" →
  micromatch rt (drop (index st) files) pattern = inl error →
  P st (answer :: pattern :: lines)
    (Rejected error (show (rl_question cyan "Enter glob pattern: ") (asking files st))
       lines).
Hypothesis case_pattern : ∀ st answer pattern lines matchedFiles r,
  (index st < length files)%nat → toLowerCase answer = "p" →
  micromatch rt (drop (index st) files) pattern = inr matchedFiles →
  P {| selectedFiles := selectedFiles st ++ matchedFiles;
       index := index st + length matchedFiles;
       shown := shown (asking files st)
                ++ [rl_question cyan "Enter glob pattern: ";
                    console_log green
                      ("Added " +:+ pretty (length matchedFiles)
                       +:+ " files matching the pattern.")] |} lines r →
  P st (answer :: pattern :: lines) r.
Hypothesis case_quit : ∀ st answer lines,
  (index st < length files)%nat → toLowerCase answer = "q" →
  P st (answer :: lines) (Resolved (show (stdout_write nl) (asking files st)) lines).
Hypothesis case_invalid : ∀ st answer lines r,
  (index st < length files)%nat → is_answer (toLowerCase answer) = false →
  P (show (console_log red "Invalid input. Please enter y, n, p, or q.")
       (asking files st)) lines r →
  P st (answer :: lines) r.

(** Whatever holds of each case of [askForFile], given that it holds of
    the call the case ends with, holds of every call. *)
Lemma askForFile_cases : ∀ lines st, P st lines (askForFile rt files lines st).
Proof.
  intros lines. remember (length lines) as n eqn:Hn. revert lines Hn.
  induction n as [n IH] using lt_wf_ind. intros lines Hn st.
  destruct (decide (length files ≤ index st)%nat) as [Hle|Hlt].
  { rewrite askForFile_done by done. by apply case_done. }
  apply Nat.nle_gt in Hlt.
  destruct lines as [|answer lines].
  { rewrite askForFile_starved by done. by apply case_starved. }
  simpl in Hn.
  destruct (String.eqb_spec (toLowerCase answer) "y") as [Hy|Hy].
  { rewrite askForFile_yes by done. apply case_yes; try done.
    eapply IH; [|reflexivity]. lia. }
  destruct (String.eqb_spec (toLowerCase answer) "n") as [Hno|Hno].
  { rewrite askForFile_no by done. apply case_no; try done.
    eapply IH; [|reflexivity]. lia. }
  destruct (String.eqb_spec (toLowerCase answer) "p") as [Hp|Hp].
  { destruct lines as [|pattern lines].
    { rewrite askForFile_pattern_starved by done. by apply case_pattern_starved. }
    destruct (micromatch rt (drop (index st) files) pattern) as [error|matched] eqn:Hm.
    - rewrite (askForFile_pattern_rejected _ _ _ _ _ _ error) by done.
      by apply case_pattern_rejected.
    - rewrite (askForFile_pattern _ _ _ _ _ _ matched) by done.
      eapply case_pattern; try done.
      eapply IH; [|reflexivity]. simpl in Hn. lia. }
  destruct (String.eqb_spec (toLowerCase answer) "q") as [Hq|Hq].
  { rewrite askForFile_quit by done. by apply case_quit. }
  assert (Hinv : is_answer (toLowerCase answer) = false).
  { unfold is_answer.
    destruct (String.eqb_spec (toLowerCase answer) "y"); [done|].
    destruct (String.eqb_spec (toLowerCase answer) "n"); [done|].
    destruct (String.eqb_spec (toLowerCase answer) "p"); [done|].
    destruct (String.eqb_spec (toLowerCase answer) "q"); [done|]. reflexivity. }
  rewrite askForFile_invalid by done. apply case_invalid; try done.
  eapply IH; [|reflexivity]. lia.
Qed.

End askForFile_cases.

(** ** Invariants of the selection loop *)

Lemma micromatch_length rt files i pattern matched :
  micromatch rt (drop i files) pattern = inr matched →
  (i + length matched ≤ max i (length files))%nat.
Proof.
  intros Hm%micromatch_sublist%sublist_length. rewrite length_drop in Hm. lia.
Qed.

(** X1.  Whatever is typed, the cursor only moves forward and never
    passes the end of the candidate list, the selection only grows at its
    end, and every file in it is one of the candidates. *)
Theorem selection_stays_within_candidates rt files lines st :
  (index st ≤ length files)%nat →
  (∀ f, f ∈ selectedFiles st → f ∈ files) →
  (index st ≤ index (loop_state (askForFile rt files lines st)) ≤ length files)%nat
  ∧ selectedFiles st `prefix_of` selectedFiles (loop_state (askForFile rt files lines st))
  ∧ (∀ f, f ∈ selectedFiles (loop_state (askForFile rt files lines st)) → f ∈ files).
Proof.
  revert lines st.
  apply (askForFile_cases rt files
           (λ st lines r,
              (index st ≤ length files)%nat →
              (∀ f, f ∈ selectedFiles st → f ∈ files) →
              (index st ≤ index (loop_state r) ≤ length files)%nat
              ∧ selectedFiles st `prefix_of` selectedFiles (loop_state r)
              ∧ (∀ f, f ∈ selectedFiles (loop_state r) → f ∈ files)));
    cbn [loop_state show asking selectedFiles index shown].
  - intros st _ Hge Hle Hin. split; [lia|]. by split.
  - intros st Hlt Hle Hin. split; [lia|]. by split.
  - intros st answer lines r Hlt _ IH Hle Hin.
    destruct (lookup_lt_is_Some_2 files (index st) Hlt) as [file Hfile].
    rewrite Hfile in IH. cbn [default from_option] in IH.
    destruct IH as (Hidx & Hpre & Hall); [simpl; lia| |].
    { intros f [Hf|Hf]%elem_of_app; [by apply Hin|].
      apply list_elem_of_singleton in Hf as ->.
      by eapply list_elem_of_lookup_2. }
    simpl in Hidx. split; [lia|]. split; [|done].
    etrans; [|exact Hpre]. by apply prefix_app_r.
  - intros st answer lines r Hlt _ IH Hle Hin.
    destruct IH as (Hidx & Hpre & Hall); [simpl; lia|done|].
    simpl in Hidx. split; [lia|]. by split.
  - intros st answer Hlt _ Hle Hin. split; [lia|]. by split.
  - intros st answer pattern lines error Hlt _ _ Hle Hin. split; [lia|]. by split.
  - intros st answer pattern lines matched r Hlt _ Hm IH Hle Hin.
    pose proof (micromatch_length _ _ _ _ _ Hm) as Hlen.
    pose proof (micromatch_sublist _ _ _ _ Hm) as Hsub.
    destruct IH as (Hidx & Hpre & Hall); [simpl; lia| |].
    { intros f [Hf|Hf]%elem_of_app; [by apply Hin|].
      eapply elem_of_sublist in Hf; [|exact Hsub].
      eapply elem_of_sublist; [exact Hf|apply sublist_drop]. }
    simpl in Hidx. split; [lia|]. split; [|done].
    etrans; [|exact Hpre]. by apply prefix_app_r.
  - intros st answer lines Hlt _ Hle Hin. split; [lia|]. by split.
  - intros st answer lines r Hlt _ IH Hle Hin.
    destruct IH as (Hidx & Hpre & Hall); [done|done|]. by split.
Qed.

Lemma selection_stays_within_candidates_witness :
  (0 ≤ index (loop_state (askForFile plain_runtime ["a.js"; "b.ts"; "c.js"]
                            ["p"; "*.js"; "y"; "y"] fresh)) ≤ 3)%nat
  ∧ [] `prefix_of` selectedFiles (loop_state (askForFile plain_runtime
                                     ["a.js"; "b.ts"; "c.js"] ["p"; "*.js"; "y"; "y"] fresh))
  ∧ (∀ f, f ∈ selectedFiles (loop_state (askForFile plain_runtime
                                ["a.js"; "b.ts"; "c.js"] ["p"; "*.js"; "y"; "y"] fresh))
          → f ∈ ["a.js"; "b.ts"; "c.js"]).
Proof.
  apply (selection_stays_within_candidates plain_runtime ["a.js"; "b.ts"; "c.js"]
           ["p"; "*.js"; "y"; "y"] fresh).
  - simpl. lia.
  - simpl. intros f Hf. inversion Hf.
Defined.

(** X2.  As long as no pattern is asked for, the selection is a
    subsequence of the candidates before the cursor; so a file is selected
    at most once when the candidate list has no repetition. *)
Theorem selection_without_patterns_is_subsequence rt files lines st :
  Forall (λ line, toLowerCase line ≠ "p") lines →
  selectedFiles st `sublist_of` take (index st) files →
  selectedFiles (loop_state (askForFile rt files lines st))
    `sublist_of` take (index (loop_state (askForFile rt files lines st))) files
  ∧ (NoDup files → NoDup (selectedFiles (loop_state (askForFile rt files lines st)))).
Proof.
  intros Hnop Hsub.
  assert (Hmain : selectedFiles (loop_state (askForFile rt files lines st))
                    `sublist_of` take (index (loop_state (askForFile rt files lines st))) files).
  { revert lines st Hnop Hsub.
    apply (askForFile_cases rt files
             (λ st lines r,
                Forall (λ line, toLowerCase line ≠ "p") lines →
                selectedFiles st `sublist_of` take (index st) files →
                selectedFiles (loop_state r) `sublist_of` take (index (loop_state r)) files));
      cbn [loop_state show asking selectedFiles index shown]; try done.
    - intros st answer lines r Hlt _ IH [_ Hnop]%Forall_cons Hsub. apply IH; [done|].
      destruct (lookup_lt_is_Some_2 files (index st) Hlt) as [file Hfile].
      rewrite Hfile, Nat.add_1_r, (take_S_r _ _ _ Hfile). cbn [default from_option].
      by apply sublist_app.
    - intros st answer lines r Hlt _ IH [_ Hnop]%Forall_cons Hsub. apply IH; [done|].
      destruct (lookup_lt_is_Some_2 files (index st) Hlt) as [file Hfile].
      rewrite Nat.add_1_r, (take_S_r _ _ _ Hfile). cbn [selectedFiles index].
      by apply sublist_inserts_r.
    - intros st answer pattern lines matched r Hlt Hp _ _ [Hnop _]%Forall_cons. done.
    - intros st answer lines r Hlt _ IH [_ Hnop]%Forall_cons Hsub. by apply IH. }
  split; [exact Hmain|].
  intros Hnodup. eapply sublist_NoDup; [|exact Hmain].
  eapply sublist_NoDup; [exact Hnodup|apply sublist_take].
Qed.

Lemma selection_without_patterns_is_subsequence_witness :
  selectedFiles (loop_state (askForFile plain_runtime ["a.js"; "b.ts"; "c.js"]
                               ["Y"; "maybe"; "n"; "q"; "y"] fresh))
    `sublist_of` take (index (loop_state (askForFile plain_runtime ["a.js"; "b.ts"; "c.js"]
                                            ["Y"; "maybe"; "n"; "q"; "y"] fresh)))
                   ["a.js"; "b.ts"; "c.js"]
  ∧ (NoDup ["a.js"; "b.ts"; "c.js"] →
     NoDup (selectedFiles (loop_state (askForFile plain_runtime ["a.js"; "b.ts"; "c.js"]
                                         ["Y"; "maybe"; "n"; "q"; "y"] fresh)))).
Proof.
  apply (selection_without_patterns_is_subsequence plain_runtime ["a.js"; "b.ts"; "c.js"]
           ["Y"; "maybe"; "n"; "q"; "y"] fresh).
  - repeat (apply Forall_cons; split; [simpl; discriminate|]). apply Forall_nil; exact I.
  - simpl. apply sublist_nil.
Defined.

(** X3.  Every progress bar the loop draws is drawn for a position
    between 1 and the number of candidates, out of that number. *)
Theorem progress_stays_within_bounds rt files lines st :
  Forall (within_bounds (length files)) (shown st) →
  Forall (within_bounds (length files)) (shown (loop_state (askForFile rt files lines st))).
Proof.
  revert lines st.
  assert (Hask : ∀ st, (index st < length files)%nat →
            Forall (within_bounds (length files)) (shown st) →
            Forall (within_bounds (length files)) (shown (asking files st))).
  { intros st Hlt Hsh. unfold asking, show. cbn [shown].
    rewrite !Forall_app. split; [split|]; [done| |].
    - apply Forall_singleton. simpl. split; [lia|done].
    - by apply Forall_singleton. }
  apply (askForFile_cases rt files
           (λ st lines r,
              Forall (within_bounds (length files)) (shown st) →
              Forall (within_bounds (length files)) (shown (loop_state r))));
    cbn [loop_state show selectedFiles index shown].
  - intros st _ _ Hsh. apply Forall_app. split; [done|]. by apply Forall_singleton.
  - intros st Hlt Hsh. by apply Hask.
  - intros st answer lines r Hlt _ IH Hsh. apply IH. by apply Hask.
  - intros st answer lines r Hlt _ IH Hsh. apply IH. by apply Hask.
  - intros st answer Hlt _ Hsh. apply Forall_app. split; [by apply Hask|].
    by apply Forall_singleton.
  - intros st answer pattern lines error Hlt _ _ Hsh. apply Forall_app.
    split; [by apply Hask|]. by apply Forall_singleton.
  - intros st answer pattern lines matched r Hlt _ _ IH Hsh. apply IH.
    apply Forall_app. split; [by apply Hask|]. by repeat constructor.
  - intros st answer lines Hlt _ Hsh. apply Forall_app. split; [by apply Hask|].
    by apply Forall_singleton.
  - intros st answer lines r Hlt _ IH Hsh. apply IH. apply Forall_app.
    split; [by apply Hask|]. by apply Forall_singleton.
Qed.

Lemma progress_stays_within_bounds_witness :
  Forall (within_bounds 3)
    (shown (loop_state (askForFile plain_runtime ["a.js"; "b.ts"; "c.js"]
                          ["p"; "*.js"; "y"] fresh))).
Proof.
  apply (progress_stays_within_bounds plain_runtime ["a.js"; "b.ts"; "c.js"]
           ["p"; "*.js"; "y"] fresh).
  simpl. apply Forall_nil. exact I.
Defined.

Lemma plain_answers_cons answer lines :
  plain_answers (answer :: lines) =
  if is_answer (toLowerCase answer) then toLowerCase answer :: plain_answers lines
  else plain_answers lines.
Proof.
  unfold plain_answers. rewrite fmap_cons, filter_cons.
  destruct (is_answer (toLowerCase answer)); by case_decide.
Qed.

Lemma askForFile_plain_answers rt files lines : ∀ st st',
  Forall (λ line, toLowerCase line ≠ "p") lines →
  selectedFiles st = selectedFiles st' → index st = index st' →
  selectedFiles (loop_state (askForFile rt files (plain_answers lines) st))
  = selectedFiles (loop_state (askForFile rt files lines st'))
  ∧ index (loop_state (askForFile rt files (plain_answers lines) st))
    = index (loop_state (askForFile rt files lines st'))
  ∧ resolved (askForFile rt files (plain_answers lines) st)
    = resolved (askForFile rt files lines st').
Proof.
  induction lines as [|answer lines IH]; intros st st' Hnop Hsel Hidx.
  - change (plain_answers []) with (@nil string).
    destruct (decide (length files ≤ index st)%nat) as [Hle|Hlt].
    + rewrite !askForFile_done by lia. by cbn.
    + rewrite !askForFile_starved by lia. by cbn.
  - apply Forall_cons in Hnop as [Hp Hnop].
    destruct (decide (length files ≤ index st)%nat) as [Hle|Hlt].
    { rewrite !askForFile_done by lia. by cbn. }
    apply Nat.nle_gt in Hlt. rewrite plain_answers_cons.
    destruct (String.eqb_spec (toLowerCase answer) "y") as [Hy|Hy].
    { rewrite Hy. cbn [is_answer String.eqb Ascii.eqb Bool.eqb orb].
      rewrite (askForFile_yes _ _ "y") by done.
      rewrite (askForFile_yes _ _ answer) by (done || lia).
      apply IH; [done|cbn; by rewrite Hsel, Hidx|cbn; by rewrite Hidx]. }
    destruct (String.eqb_spec (toLowerCase answer) "n") as [Hn|Hn].
    { rewrite Hn. cbn [is_answer String.eqb Ascii.eqb Bool.eqb orb].
      rewrite (askForFile_no _ _ "n") by done.
      rewrite (askForFile_no _ _ answer) by (done || lia).
      apply IH; [done|done|cbn; by rewrite Hidx]. }
    destruct (String.eqb_spec (toLowerCase answer) "q") as [Hq|Hq].
    { rewrite Hq. cbn [is_answer String.eqb Ascii.eqb Bool.eqb orb].
      rewrite (askForFile_quit _ _ "q") by done.
      rewrite (askForFile_quit _ _ answer) by (done || lia). by cbn. }
    assert (Hinv : is_answer (toLowerCase answer) = false).
    { unfold is_answer.
      destruct (String.eqb_spec (toLowerCase answer) "y"); [done|].
      destruct (String.eqb_spec (toLowerCase answer) "n"); [done|].
      destruct (String.eqb_spec (toLowerCase answer) "p"); [done|].
      destruct (String.eqb_spec (toLowerCase answer) "q"); [done|]. reflexivity. }
    rewrite Hinv, (askForFile_invalid _ _ answer) by (done || lia).
    by apply IH.
Qed.

(** X4.  Answers are read without regard to case, and a line that is none
    of y, n, p, q changes nothing: when no pattern is asked for, the loop
    selects the same files, stops at the same cursor and ends the same way
    as on the answers in lower case with the other lines left out. *)
Theorem answers_are_normalised rt files lines :
  Forall (λ line, toLowerCase line ≠ "p") lines →
  selectedFiles (loop_state (askForFile rt files (plain_answers lines) fresh))
  = selectedFiles (loop_state (askForFile rt files lines fresh))
  ∧ index (loop_state (askForFile rt files (plain_answers lines) fresh))
    = index (loop_state (askForFile rt files lines fresh))
  ∧ resolved (askForFile rt files (plain_answers lines) fresh)
    = resolved (askForFile rt files lines fresh).
Proof.
  intros Hnop. by apply askForFile_plain_answers.
Qed.

Lemma answers_are_normalised_witness :
  selectedFiles (loop_state (askForFile plain_runtime ["a.js"; "b.ts"; "c.js"]
                               ["y"; "n"; "q"; "y"] fresh))
  = selectedFiles (loop_state (askForFile plain_runtime ["a.js"; "b.ts"; "c.js"]
                                 ["Y"; "maybe"; "N"; "?"; "Q"; "y"] fresh))
  ∧ index (loop_state (askForFile plain_runtime ["a.js"; "b.ts"; "c.js"]
                         ["y"; "n"; "q"; "y"] fresh))
    = index (loop_state (askForFile plain_runtime ["a.js"; "b.ts"; "c.js"]
                           ["Y"; "maybe"; "N"; "?"; "Q"; "y"] fresh))
  ∧ resolved (askForFile plain_runtime ["a.js"; "b.ts"; "c.js"] ["y"; "n"; "q"; "y"] fresh)
    = resolved (askForFile plain_runtime ["a.js"; "b.ts"; "c.js"]
                  ["Y"; "maybe"; "N"; "?"; "Q"; "y"] fresh).
Proof.
  apply (answers_are_normalised plain_runtime ["a.js"; "b.ts"; "c.js"]
           ["Y"; "maybe"; "N"; "?"; "Q"; "y"]).
  repeat (apply Forall_cons; split; [simpl; discriminate|]). apply Forall_nil; exact I.
Defined.

Lemma askForFile_rejected_needs_pattern rt files lines st error st' unread :
  Forall (λ line, toLowerCase line ≠ "p") lines →
  askForFile rt files lines st ≠ Rejected error st' unread.
Proof.
  revert lines st.
  apply (askForFile_cases rt files
           (λ st lines r,
              Forall (λ line, toLowerCase line ≠ "p") lines → r ≠ Rejected error st' unread));
    try done.
  - intros st answer lines r _ _ IH [_ Hnop]%Forall_cons. by apply IH.
  - intros st answer lines r _ _ IH [_ Hnop]%Forall_cons. by apply IH.
  - intros st answer pattern lines e _ Hp _ [Hnop _]%Forall_cons. done.
  - intros st answer pattern lines matched r _ Hp _ _ [Hnop _]%Forall_cons. done.
  - intros st answer lines r _ _ IH [_ Hnop]%Forall_cons. by apply IH.
Qed.

Lemma plain_answers_yes_no lines :
  Forall (λ line, toLowerCase line ≠ "p" ∧ toLowerCase line ≠ "q") lines →
  Forall (λ answer, answer = "y" ∨ answer = "n") (plain_answers lines).
Proof.
  induction lines as [|line lines IH]; [intros _; by apply Forall_nil|].
  intros [[Hp Hq] Hrest]%Forall_cons. rewrite plain_answers_cons.
  destruct (is_answer (toLowerCase line)) eqn:Ha; [|by apply IH].
  apply Forall_cons. split; [|by apply IH].
  unfold is_answer in Ha.
  destruct (String.eqb_spec (toLowerCase line) "y"); [by left|].
  destruct (String.eqb_spec (toLowerCase line) "n"); [by right|].
  destruct (String.eqb_spec (toLowerCase line) "p"); [done|].
  destruct (String.eqb_spec (toLowerCase line) "q"); [done|]. discriminate.
Qed.

Lemma answers_stall rt files lines :
  Forall (λ line, toLowerCase line ≠ "p" ∧ toLowerCase line ≠ "q") lines →
  (length (plain_answers lines) < length files)%nat →
  ∃ st, askForFile rt files lines fresh = Waiting st.
Proof.
  intros Hlines Hlen.
  assert (Hnop : Forall (λ line, toLowerCase line ≠ "p") lines).
  { eapply Forall_impl; [exact Hlines|]. by intros line [? _]. }
  destruct (askForFile_plain_answers rt files lines fresh fresh Hnop eq_refl eq_refl)
    as (_ & _ & Hres).
  destruct (askForFile_yes_no_prefix rt files (plain_answers lines) [] fresh)
    as [sh Hsh]; [simpl; lia|by apply plain_answers_yes_no|].
  rewrite app_nil_r in Hsh. rewrite Hsh, askForFile_starved in Hres by (simpl; lia).
  destruct (askForFile rt files lines fresh) as [st u|e st u|st] eqn:Hr.
  - discriminate.
  - by destruct (askForFile_rejected_needs_pattern rt files lines fresh e st u Hnop).
  - by exists st.
Qed.

(** X5.  The loop only ends at the last candidate or on [q]: when the
    input holds neither [q] nor [p] and answers fewer candidates than
    there are, [selectFiles] never returns. *)
Theorem selection_stalls_when_input_ends rt files s :
  Forall (λ line, toLowerCase line ≠ "p" ∧ toLowerCase line ≠ "q") (stdin s) →
  (length (plain_answers (stdin s)) < length files)%nat →
  (selectFiles rt files s).2 = Starved.
Proof.
  intros Hlines Hlen.
  assert (Hnop : Forall (λ line, toLowerCase line ≠ "p") (stdin s)).
  { eapply Forall_impl; [exact Hlines|]. by intros line [? _]. }
  destruct (answers_stall rt files (stdin s)) as [st Hst]; [done..|].
  unfold selectFiles, bind, emit. cbn [stdin]. by rewrite Hst.
Qed.

Lemma selection_stalls_when_input_ends_witness :
  (selectFiles plain_runtime ["a.js"; "b.ts"; "c.js"] (boot ["y"; "what?"; "N"])).2 = Starved.
Proof.
  apply (selection_stalls_when_input_ends plain_runtime ["a.js"; "b.ts"; "c.js"]
           (boot ["y"; "what?"; "N"])).
  - simpl. repeat (apply Forall_cons; split; [split; discriminate|]).
    apply Forall_nil; exact I.
  - vm_compute. lia.
Defined.

(** ** What a stage may touch *)

Lemma bind_normal {A B} (m : prog A) (k : A → prog B) s a :
  (m s).2 = Normal a → bind m k s = k a (m s).1.
Proof. unfold bind. destruct (m s) as [s1 [a'|e|]]; simpl; by intros [= ->]. Qed.

Lemma bind_abrupt {A B} (m : prog A) (k : A → prog B) s e :
  (m s).2 = Abrupt e → bind m k s = ((m s).1, Abrupt e).
Proof. unfold bind. destruct (m s) as [s1 [a'|e'|]]; simpl; by intros [= ->]. Qed.

Lemma bind_starved {A B} (m : prog A) (k : A → prog B) s :
  (m s).2 = Starved → bind m k s = ((m s).1, Starved).
Proof. unfold bind. by destruct (m s) as [s1 [a'|e'|]]. Qed.

Lemma framed_ret {A} target (a : A) : framed target (ret a).
Proof.
  intros s. split; [|split]; [|done..].
  exists []. rewrite app_nil_r. by split.
Qed.

Lemma framed_throw {A} target e : framed target (@throw A e).
Proof.
  intros s. split; [|split]; [|done..].
  exists []. rewrite app_nil_r. by split.
Qed.

Lemma framed_lift {A} target (r : thrown + A) : framed target (lift r).
Proof. destruct r; [apply framed_throw|apply framed_ret]. Qed.

Lemma framed_emit target ev : ordinary ev = true → framed target (emit ev).
Proof.
  intros Hev s. split; [|split]; [|done..].
  exists [ev]. split; [done|]. apply Forall_singleton. by rewrite Hev.
Qed.

Lemma framed_bind {A B} target (m : prog A) (k : A → prog B) :
  framed target m → (∀ a, framed target (k a)) → framed target (bind m k).
Proof.
  intros Hm Hk s. destruct (Hm s) as ((tr & Htr & Hord) & Hin & Hdisk).
  unfold bind. destruct (m s) as [s1 [a|e|]]; simpl in *.
  - destruct (Hk a s1) as ((tr' & Htr' & Hord') & Hin' & Hdisk').
    split; [|split].
    + exists (tr ++ tr')%list. rewrite Htr', Htr, (assoc_L (++)). split; [done|].
      by apply Forall_app.
    + by etrans.
    + intros q Hq. by rewrite Hdisk', Hdisk.
  - split; [by exists tr|by split].
  - split; [by exists tr|by split].
Qed.

Lemma framed_try_catch {A} target (body : prog A) handler :
  framed target body → (∀ e, framed target (handler e)) →
  framed target (try_catch body handler).
Proof.
  intros Hm Hk s. destruct (Hm s) as ((tr & Htr & Hord) & Hin & Hdisk).
  unfold try_catch. destruct (body s) as [s1 [a|e|]]; simpl in *.
  - split; [by exists tr|by split].
  - destruct (Hk e s1) as ((tr' & Htr' & Hord') & Hin' & Hdisk').
    split; [|split].
    + exists (tr ++ tr')%list. rewrite Htr', Htr, (assoc_L (++)). split; [done|].
      by apply Forall_app.
    + by etrans.
    + intros q Hq. by rewrite Hdisk', Hdisk.
  - split; [by exists tr|by split].
Qed.

Lemma framed_emit_all target events :
  Forall (λ ev, Is_true (ordinary ev)) events → framed target (emit_all events).
Proof.
  induction 1 as [|ev events Hev _ IH]; simpl; [apply framed_ret|].
  apply framed_bind; [|done]. apply framed_emit. by apply Is_true_eq_true.
Qed.

Ltac framed_step :=
  first [ apply framed_ret | apply framed_throw | apply framed_lift
        | apply framed_emit; reflexivity
        | apply framed_bind; [|intros ?]
        | apply framed_try_catch; [|intros ?] ].

Lemma getConfiguration_framed target rt w rootPath :
  framed target (getConfiguration rt w rootPath).
Proof.
  unfold getConfiguration. framed_step; [framed_step|].
  destruct (existsSync w (configPath_of rt w rootPath)).
  - repeat framed_step. by destruct e as [e|text]; framed_step.
  - repeat framed_step.
Qed.

Lemma getAllFiles_framed target rt w dir config :
  framed target (getAllFiles rt w dir config).
Proof.
  unfold getAllFiles. do 2 (framed_step; [framed_step|]).
  destruct (glob rt w _ dir _ true) as [err|files].
  - framed_step; [framed_step|].
    destruct (includes "ENOENT" (message err)); [framed_step|].
    destruct (includes "EACCES" (message err)); framed_step.
  - framed_step; [framed_step|]. framed_step; [|framed_step].
    destruct ((0 <? length files)%nat && flag (ArgvOptions.verbose (argv w)));
      [|framed_step].
    framed_step; [framed_step|]. framed_step.
    + apply framed_emit_all. apply Forall_fmap. by apply Forall_true.
    + destruct (5 <? length files)%nat; framed_step.
Qed.

Lemma askForFile_frame rt files lines st :
  (∃ tr, shown (loop_state (askForFile rt files lines st)) = (shown st ++ tr)%list
         ∧ Forall (λ ev, Is_true (ordinary ev)) tr)
  ∧ loop_unread (askForFile rt files lines st) `suffix_of` lines.
Proof.
  revert lines st.
  assert (Hask : ∀ st tr sh',
            Forall (λ ev, Is_true (ordinary ev)) tr →
            sh' = (shown (asking files st) ++ tr)%list →
            ∃ tr', sh' = (shown st ++ tr')%list ∧ Forall (λ ev, Is_true (ordinary ev)) tr').
  { intros st tr sh' Htr ->. unfold asking, show. cbn [shown].
    eexists (_ :: _ :: tr). rewrite <- !(assoc_L (++)). split; [reflexivity|].
    apply Forall_cons. split; [done|]. apply Forall_cons. by split. }
  apply (askForFile_cases rt files
           (λ st lines r,
              (∃ tr, shown (loop_state r) = (shown st ++ tr)%list
                     ∧ Forall (λ ev, Is_true (ordinary ev)) tr)
              ∧ loop_unread r `suffix_of` lines));
    cbn [loop_state loop_unread show selectedFiles index shown].
  - intros st lines _. split; [|done]. eexists. split; [reflexivity|].
    by apply Forall_singleton.
  - intros st _. split; [|done]. by apply (Hask st []); [|rewrite app_nil_r].
  - intros st answer lines r _ _ [(tr & Htr & Hord) Hsuf]. cbn [shown] in Htr.
    split; [by apply (Hask st tr)|by apply suffix_cons_r].
  - intros st answer lines r _ _ [(tr & Htr & Hord) Hsuf]. cbn [shown] in Htr.
    split; [by apply (Hask st tr)|by apply suffix_cons_r].
  - intros st answer _ _. split; [|by apply suffix_nil].
    apply (Hask st [rl_question cyan "Enter glob pattern: "]); [|done].
    by apply Forall_singleton.
  - intros st answer pattern lines error _ _ _.
    split; [|by do 2 apply suffix_cons_r].
    apply (Hask st [rl_question cyan "Enter glob pattern: "]); [|done].
    by apply Forall_singleton.
  - intros st answer pattern lines matched r _ _ _ [(tr & Htr & Hord) Hsuf].
    cbn [shown] in Htr. split; [|by do 2 apply suffix_cons_r].
    apply (Hask st (rl_question cyan "Enter glob pattern: "
                    :: console_log green
                         ("Added " +:+ pretty (length matched)
                          +:+ " files matching the pattern.") :: tr));
      [|by rewrite Htr, <- (assoc_L (++))].
    apply Forall_cons. split; [done|]. apply Forall_cons. by split.
  - intros st answer lines _ _. split; [|by apply suffix_cons_r].
    apply (Hask st [stdout_write nl]); [|done]. by apply Forall_singleton.
  - intros st answer lines r _ _ [(tr & Htr & Hord) Hsuf]. cbn [shown] in Htr.
    split; [|by apply suffix_cons_r].
    apply (Hask st (console_log red "Invalid input. Please enter y, n, p, or q." :: tr));
      [|by rewrite Htr, <- (assoc_L (++))].
    apply Forall_cons. by split.
Qed.

Lemma selectFiles_framed target rt files : framed target (selectFiles rt files).
Proof.
  intros s. unfold selectFiles, bind, emit. cbn [stdin trace disk].
  destruct (askForFile_frame rt files (stdin s) fresh) as [(tr & Htr & Hord) Hsuf].
  cbn [fresh shown] in Htr.
  destruct (askForFile rt files (stdin s) fresh) as [st u|e st u|st];
    cbn [loop_state loop_unread fst snd stdin trace disk] in *;
    (split; [|split]; [|done || by apply suffix_nil|done]);
    exists (console_log blue "Select files to include:" :: shown st);
    (split; [by rewrite <- (assoc_L (++))|]);
    apply Forall_cons; (split; [done|]); by rewrite Htr.
Qed.

Lemma collect_each_framed target rt w rootPath total files : ∀ index output,
  framed target (collect_each rt w rootPath total index files output).
Proof.
  induction files as [|file files IH]; intros index output; cbn [collect_each].
  - apply framed_ret.
  - framed_step; [framed_step|]. framed_step; [framed_step|]. apply IH.
Qed.

Lemma collectCode_framed target rt w rootPath files :
  framed target (collectCode rt w rootPath files).
Proof.
  unfold collectCode. do 2 (framed_step; [framed_step|]).
  framed_step; [apply collect_each_framed|]. repeat framed_step.
Qed.

Lemma writeFileSync_framed w path data : framed path (writeFileSync w path data).
Proof.
  intros s. unfold writeFileSync. destruct (write_error w path); cbn [fst stdin trace disk].
  - split; [|by split]. exists []. by rewrite app_nil_r.
  - split; [|split]; [|done|].
    + exists []. by rewrite app_nil_r.
    + intros q Hq. by rewrite lookup_insert_ne.
Qed.

Lemma writeOutput_framed rt w content outputPath (compress : bool) :
  framed (if compress then outputPath +:+ ".gz" else outputPath)
    (writeOutput rt w content outputPath compress).
Proof.
  unfold writeOutput, compressOutput. destruct compress.
  - framed_step.
    + destruct (gzip rt content); framed_step.
    + framed_step; [apply writeFileSync_framed|framed_step].
  - framed_step; [apply writeFileSync_framed|framed_step].
Qed.

(** ** The whole run *)

Lemma report_run w error s :
  report w error s
  = ({| stdin := stdin s; trace := trace s ++ report_log w error; disk := disk s |},
     Normal tt).
Proof.
  destruct error as [e|text]; unfold report, report_log, bind, emit, ret;
    cbn [stdin trace disk]; [|reflexivity].
  destruct (flag (ArgvOptions.verbose (argv w))); cbn [stdin trace disk].
  - by rewrite <- (assoc_L (++)).
  - reflexivity.
Qed.

(** What [main] does inside its [try] block stays within the frame of a
    stage; an error caught is reported; then the prompt is closed, unless
    the selection stalled. *)
Lemma main_frame rt w s :
  (∃ tr rep,
     trace (main rt w s).1
     = (trace s ++ tr ++ rep ++ match (main rt w s).2 with
                                | Starved => []
                                | _ => [rl_close]
                                end)%list
     ∧ Forall (λ ev, Is_true (ordinary ev)) tr
     ∧ (rep = []
        ∨ ∃ error, rep = console_error red "An error occurred:" :: report_log w error))
  ∧ stdin (main rt w s).1 `suffix_of` stdin s
  ∧ (∀ q, q ≠ target_path rt w → disk (main rt w s).1 !! q = disk s !! q).
Proof.
  unfold main.
  match goal with |- context [try_catch ?b _] => set (body := b) end.
  assert (Hbody : framed (target_path rt w) body).
  { subst body.
    framed_step; [framed_step|].
    framed_step; [apply getConfiguration_framed|].
    framed_step; [framed_step|].
    framed_step.
    { match goal with |- context [config_view ?c] => destruct (config_view c) end;
        [apply getAllFiles_framed|framed_step]. }
    match goal with |- context [(length ?l =? 0)%nat] => destruct (length l =? 0)%nat end;
      [by repeat framed_step|].
    framed_step; [framed_step|].
    framed_step; [apply selectFiles_framed|].
    match goal with |- context [(length ?l =? 0)%nat] => destruct (length l =? 0)%nat end;
      [framed_step|].
    framed_step; [framed_step|].
    framed_step; [apply collectCode_framed|].
    framed_step; [|framed_step].
    unfold target_path. apply writeOutput_framed. }
  clearbody body.
  cbv beta iota delta [bind emit try_finally try_catch].
  match goal with |- context [body ?s1] =>
    destruct (Hbody s1) as ((tr & Htr & Hord) & Hin & Hdisk); cbn [stdin trace disk] in *;
    destruct (body s1) as [s2 [a|e|]]
  end; cbn [fst snd stdin trace disk] in *.
  - split; [|by split].
    exists (console_log blue "CodeCopier is starting..." :: tr), [].
    split; [by rewrite Htr, <- !(assoc_L (++))|]. split; [by apply Forall_cons|by left].
  - rewrite report_run. cbn [fst snd stdin trace disk].
    split; [|by split].
    exists (console_log blue "CodeCopier is starting..." :: tr),
      (console_error red "An error occurred:" :: report_log w e).
    split; [by rewrite Htr, <- !(assoc_L (++))|].
    split; [by apply Forall_cons|right; by exists e].
  - split; [|by split].
    exists (console_log blue "CodeCopier is starting..." :: tr), [].
    split; [by rewrite Htr, !app_nil_r, <- !(assoc_L (++))|].
    split; [by apply Forall_cons|by left].
Qed.


(** X7.  A run writes no file other than the output file (the output path
    under the working directory, with [.gz] appended under [--compress]),
    and what it leaves of standard input is an end of what it was given. *)
Theorem run_writes_only_the_output_file rt w lines :
  (∀ q, q ≠ target_path rt w → disk (run rt w lines).1 !! q = None)
  ∧ stdin (run rt w lines).1 `suffix_of` lines.
Proof.
  unfold run. fold (boot lines).
  destruct (main_frame rt w (boot lines)) as (_ & Hin & Hdisk).
  pose proof (main_never_rejects rt w (boot lines)) as Hno.
  destruct (main rt w (boot lines)) as [s [a|e|]]; cbn [fst snd] in *.
  - split; [|done]. intros q Hq. by rewrite Hdisk.
  - by destruct (Hno e).
  - split; [|done]. intros q Hq. by rewrite Hdisk.
Qed.

Lemma framed_disk {A} (m : prog A) s :
  (∀ target, framed target m) → disk (m s).1 = disk s.
Proof.
  intros Hm. apply map_eq. intros q.
  destruct (decide (q = "a")) as [->|Hq].
  - by apply (Hm "b" s).
  - by apply (Hm "a" s).
Qed.

Lemma report_disk w error s :
  ∃ s', report w error s = (s', Normal tt) ∧ disk s' = disk s.
Proof.
  destruct error as [e|text]; unfold report, bind, emit, ret.
  - destruct (flag (ArgvOptions.verbose (argv w))); eexists; split; reflexivity.
  - eexists; split; reflexivity.
Qed.

Lemma writeOutput_disk rt w content outputPath compress s :
  disk (writeOutput rt w content outputPath compress s).1 = disk s
  ∨ (writeOutput rt w content outputPath compress s).2 = Normal tt.
Proof.
  unfold writeOutput, compressOutput, writeFileSync, bind, emit, throw, ret.
  destruct compress.
  - destruct (gzip rt content); [by left|].
    destruct (write_error w (outputPath +:+ ".gz")); [by left|by right].
  - destruct (write_error w outputPath); [by left|by right].
Qed.

Ltac split_stage f lemma :=
  match goal with
  | |- context [f ?s] =>
      let Hd := fresh "Hd" in
      pose proof (framed_disk f s lemma) as Hd;
      destruct (f s) as [? [?|?|]]; cbn [fst snd stdin trace disk] in *
  end.

Ltac dead_end :=
  left;
  repeat match goal with
         | |- context [report ?w ?e ?s] =>
             let s' := fresh "s" in
             let Hr := fresh "Hr" in
             let Hd := fresh "Hd" in
             destruct (report_disk w e s) as (s' & Hr & Hd); rewrite Hr;
             cbn [fst snd stdin trace disk] in *
         end;
  cbn [fst snd stdin trace disk]; congruence.

(** Unless [main] reaches its last statement, it leaves the disk as it
    found it. *)
Lemma main_disk rt w s :
  disk (main rt w s).1 = disk s
  ∨ ((main rt w s).2 = Normal tt
     ∧ ∃ tr, trace (main rt w s).1
             = (tr ++ [console_log green "CodeCopier completed successfully!"; rl_close])%list).
Proof.
  unfold main. cbv beta iota delta [bind emit try_finally try_catch].
  cbn [stdin trace disk].
  split_stage (getConfiguration rt w (cwd w)) (λ t, getConfiguration_framed t rt w (cwd w));
    [|dead_end..].
  match goal with |- context [config_view ?c] => destruct (config_view c) as [config|] end;
    [|cbn [throw]; dead_end].
  split_stage (getAllFiles rt w (cwd w) config) (λ t, getAllFiles_framed t rt w (cwd w) config);
    [|dead_end..].
  match goal with |- context [(length ?l =? 0)%nat] => destruct (length l =? 0)%nat end;
    [dead_end|].
  match goal with |- context [selectFiles rt ?l] =>
    split_stage (selectFiles rt l) (λ t, selectFiles_framed t rt l) end;
    [|dead_end..].
  match goal with |- context [(length ?l =? 0)%nat] => destruct (length l =? 0)%nat end;
    [dead_end|].
  match goal with |- context [collectCode rt w (cwd w) ?l] =>
    split_stage (collectCode rt w (cwd w) l) (λ t, collectCode_framed t rt w (cwd w) l) end;
    [|dead_end..].
  match goal with |- context [writeOutput rt w ?c ?p ?z ?s0] =>
    destruct (writeOutput_disk rt w c p z s0) as [Hw|Hw];
    destruct (writeOutput rt w c p z s0) as [s' [[]|e|]]
  end; cbn [fst snd stdin trace disk] in *; try discriminate; try dead_end.
  right. split; [done|]. eexists. rewrite <- (assoc_L (++)). reflexivity.
Qed.

(** X8.  The output file exists after a run only if the run went through
    to its last statement: it then ends with exit code 0, and the last
    things it did were to report success and to close the prompt. *)
Theorem output_written_only_on_success rt w lines data :
  disk (run rt w lines).1 !! target_path rt w = Some data →
  (run rt w lines).2 = exit 0
  ∧ ∃ tr, trace (run rt w lines).1
          = (tr ++ [console_log green "CodeCopier completed successfully!"; rl_close])%list.
Proof.
  unfold run. fold (boot lines).
  destruct (main_disk rt w (boot lines)) as [Hd|[Hn Htr]].
  - pose proof (main_never_rejects rt w (boot lines)) as Hno.
    destruct (main rt w (boot lines)) as [s [a|e|]]; cbn [fst snd] in *;
      [|by destruct (Hno e)|]; rewrite Hd; cbn [boot disk]; by rewrite lookup_empty.
  - destruct (main rt w (boot lines)) as [s [a|e|]]; cbn [fst snd] in *; try discriminate.
    by intros _.
Qed.

Lemma output_written_only_on_success_witness :
  (run scenario_runtime scenario_project ["y"]).2 = exit 0
  ∧ ∃ tr, trace (run scenario_runtime scenario_project ["y"]).1
          = (tr ++ [console_log green "CodeCopier completed successfully!"; rl_close])%list.
Proof.
  apply (output_written_only_on_success scenario_runtime scenario_project ["y"]
           ("# CodeCopier Output" +:+ nl +:+ nl
            +:+ "## File: a.js" +:+ nl +:+ nl
            +:+ "```javascript" +:+ nl
            +:+ "console.log(1)" +:+ nl
            +:+ "```" +:+ nl +:+ nl)).
  vm_compute. reflexivity.
Defined.

(** ** The stages, run *)

Lemma getConfiguration_state rt w rootPath s :
  ∃ tr, getConfiguration rt w rootPath s
        = ({| stdin := stdin s; trace := trace s ++ tr; disk := disk s |},
           (getConfiguration rt w rootPath (boot [])).2).
Proof.
  unfold getConfiguration, bind, emit, try_catch, lift, ret, throw, boot.
  cbn [stdin trace disk].
  destruct (existsSync w (configPath_of rt w rootPath)); cbn [stdin trace disk].
  - destruct (readFileSync w (configPath_of rt w rootPath)) as [[e|text]|content];
      try (eexists; rewrite <- (assoc_L (++)); reflexivity).
    destruct (JSON_parse rt content) as [[e|text]|parsed];
      try (eexists; rewrite <- (assoc_L (++)); reflexivity).
    destruct (validateConfig rt (spread defaultConfig (own_props parsed))) as [[e|text]|[]];
      eexists; rewrite <- (assoc_L (++)); reflexivity.
  - eexists; rewrite <- (assoc_L (++)); reflexivity.
Qed.

Lemma emit_all_run events s :
  emit_all events s
  = ({| stdin := stdin s; trace := trace s ++ events; disk := disk s |}, Normal tt).
Proof.
  revert s. induction events as [|ev events IH]; intros s; simpl.
  - unfold ret. rewrite app_nil_r. by destruct s.
  - unfold bind, emit. rewrite IH. cbn [stdin trace disk].
    by rewrite <- (assoc_L (++)).
Qed.

Lemma getAllFiles_found rt w dir config files s :
  glob rt w (join "|" (include config)) dir (exclude config) true = inr files →
  getAllFiles rt w dir config s
  = ({| stdin := stdin s;
        trace := trace s ++ discovery_log w dir config files;
        disk := disk s |},
     Normal files).
Proof.
  intros Hglob. unfold getAllFiles, discovery_log, bind, emit, ret. rewrite Hglob.
  cbn [stdin trace disk].
  destruct ((0 <? length files)%nat && flag (ArgvOptions.verbose (argv w)));
    cbn [stdin trace disk].
  - rewrite emit_all_run. cbn [stdin trace disk].
    destruct (5 <? length files)%nat; cbn [stdin trace disk];
      rewrite ?app_nil_r, <- ?(assoc_L (++)); reflexivity.
  - rewrite app_nil_r, <- !(assoc_L (++)). reflexivity.
Qed.

Lemma collectCode_reads rt w rootPath files texts s :
  Forall2 (λ file text, readFileSync w (path_join rt rootPath file) = inr text) files texts →
  ∃ tr, collectCode rt w rootPath files s
        = ({| stdin := stdin s; trace := trace s ++ tr; disk := disk s |},
           Normal (title +:+ sections files texts)).
Proof.
  intros Hread.
  unfold collectCode, bind at 1. unfold emit at 1.
  unfold bind at 1. unfold emit at 1. unfold bind at 1.
  match goal with
  | |- context [collect_each rt w rootPath ?t ?i files ?o ?st] =>
      destruct (collect_each_framed "a" rt w rootPath t files i o st)
        as ((tr & Htr & _) & _ & _);
      destruct (collect_each_reads rt w rootPath t files texts Hread i o st)
        as (s' & Heq & Hin & Hdisk);
      rewrite Heq in Htr |- *
  end.
  unfold bind, emit, ret. cbn [fst snd stdin trace disk] in *.
  rewrite Htr, Hin, Hdisk, <- !(assoc_L (++)). eexists. reflexivity.
Qed.

Ltac run_to_discovery Hconfig Hview Hglob tr :=
  unfold run, main; cbv beta iota delta [bind emit try_finally try_catch];
  cbn [stdin trace disk];
  match goal with
  | |- context [getConfiguration ?rt ?w (cwd ?w) ?s] =>
      let Heq := fresh "Heq" in
      destruct (getConfiguration_state rt w (cwd w) s) as [tr Heq]; rewrite Heq;
      fold (configured rt w); rewrite Hconfig; cbv beta iota; rewrite Hview;
      rewrite (getAllFiles_found _ _ _ _ _ _ Hglob); cbv beta iota;
      cbn [stdin trace disk]
  end.

(** X9.  When discovery finds no file, the run says so, reads nothing and
    writes nothing: standard input is left as it was, the disk is empty,
    and the process ends with exit code 0 after closing the prompt. *)
Theorem run_with_no_files rt w lines config cfg :
  configured rt w = Normal config →
  config_view config = Some cfg →
  glob rt w (join "|" (include cfg)) (cwd w) (exclude cfg) true = inr [] →
  ∃ tr,
    run rt w lines
    = ({| stdin := lines;
          trace := tr ++ [console_log yellow "No files found matching the criteria.";
                          console_log cyan
                            "Check your configuration and make sure you're in the correct directory.";
                          rl_close];
          disk := ∅ |},
       exit 0).
Proof.
  intros Hconfig Hview Hglob.
  run_to_discovery Hconfig Hview Hglob tr.
  cbn [length Nat.eqb]. cbv beta iota. cbn [stdin trace disk].
  exists ([console_log blue "CodeCopier is starting...";
           console_log blue ("Working in directory: " +:+ cwd w)]
          ++ tr
          ++ [console_log cyan "Configuration loaded. Searching for files..."]
          ++ discovery_log w (cwd w) cfg [])%list.
  do 2 f_equal. rewrite <- !(assoc_L (++)). reflexivity.
Qed.

Lemma run_with_no_files_witness :
  ∃ tr,
    run scenario_runtime (project default_args [("b.png", Some "PNG")]) ["y"]
    = ({| stdin := ["y"];
          trace := tr ++ [console_log yellow "No files found matching the criteria.";
                          console_log cyan
                            "Check your configuration and make sure you're in the correct directory.";
                          rl_close];
          disk := ∅ |},
       exit 0).
Proof.
  apply (run_with_no_files scenario_runtime (project default_args [("b.png", Some "PNG")])
           ["y"] defaultConfig
           {| exclude := ["node_modules/**"; ".git/**"]; include := [default_include] |}).
  - reflexivity.
  - reflexivity.
  - reflexivity.
Defined.

Lemma length_eqb_0 {A} (l : list A) : l ≠ [] → (length l =? 0)%nat = false.
Proof. by destruct l. Qed.

Ltac run_to_selection Hconfig Hview Hglob Hfiles Hloop tr :=
  run_to_discovery Hconfig Hview Hglob tr;
  rewrite (length_eqb_0 _ Hfiles); cbv beta iota; cbn [stdin trace disk];
  unfold selectFiles; cbv beta iota delta [bind emit]; cbn [stdin trace disk];
  rewrite Hloop; cbv beta iota; cbn [stdin trace disk].

(** X10.  When the selection ends with no file selected, the run says so
    and writes nothing; it leaves the lines the loop did not read, and ends
    with exit code 0 after closing the prompt. *)
Theorem run_with_empty_selection rt w lines config cfg files st unread :
  configured rt w = Normal config →
  config_view config = Some cfg →
  glob rt w (join "|" (include cfg)) (cwd w) (exclude cfg) true = inr files →
  files ≠ [] →
  askForFile rt files lines fresh = Resolved st unread →
  selectedFiles st = [] →
  ∃ tr,
    run rt w lines
    = ({| stdin := unread;
          trace := tr ++ [console_log yellow "No files selected. Exiting..."; rl_close];
          disk := ∅ |},
       exit 0).
Proof.
  intros Hconfig Hview Hglob Hfiles Hloop Hsel.
  run_to_selection Hconfig Hview Hglob Hfiles Hloop tr.
  rewrite Hsel. cbn [length Nat.eqb]. cbv beta iota. cbn [stdin trace disk].
  exists ([console_log blue "CodeCopier is starting...";
           console_log blue ("Working in directory: " +:+ cwd w)]
          ++ tr
          ++ [console_log cyan "Configuration loaded. Searching for files..."]
          ++ discovery_log w (cwd w) cfg files
          ++ [console_log green ("Found " +:+ pretty (length files)
                                 +:+ " files. Starting selection process...");
              console_log blue "Select files to include:"]
          ++ shown st)%list.
  do 2 f_equal. rewrite <- !(assoc_L (++)). reflexivity.
Qed.

Lemma run_with_empty_selection_witness :
  ∃ tr,
    run scenario_runtime scenario_project ["Q"; "y"]
    = ({| stdin := ["y"];
          trace := tr ++ [console_log yellow "No files selected. Exiting..."; rl_close];
          disk := ∅ |},
       exit 0).
Proof.
  apply (run_with_empty_selection scenario_runtime scenario_project ["Q"; "y"] defaultConfig
           {| exclude := ["node_modules/**"; ".git/**"]; include := [default_include] |}
           ["a.js"]
           {| selectedFiles := []; index := 0;
              shown := [progress_bar 1 1;
                        rl_question yellow (nl +:+ "Include a.js? (y/n/p/q) ");
                        stdout_write nl] |}).
  - reflexivity.
  - reflexivity.
  - reflexivity.
  - discriminate.
  - reflexivity.
  - reflexivity.
Defined.

(** X11.  The stages compose: with a configuration that loads, a
    discovery that finds files, a selection that ends with files selected
    which can all be read, and an output file that can be written, the run
    puts exactly one file on the disk, the output file, holding the
    document of the selection (compressed under [--compress]); it leaves the
    lines the loop did not read, reports success, closes the prompt and
    ends with exit code 0. *)
Theorem run_end_to_end rt w lines config cfg files st unread texts payload :
  configured rt w = Normal config →
  config_view config = Some cfg →
  glob rt w (join "|" (include cfg)) (cwd w) (exclude cfg) true = inr files →
  files ≠ [] →
  askForFile rt files lines fresh = Resolved st unread →
  selectedFiles st ≠ [] →
  Forall2 (λ file text, readFileSync w (path_join rt (cwd w) file) = inr text)
    (selectedFiles st) texts →
  (if flag (ArgvOptions.compress (argv w))
   then gzip rt (title +:+ sections (selectedFiles st) texts) = inr payload
   else payload = title +:+ sections (selectedFiles st) texts) →
  write_error w (target_path rt w) = None →
  ∃ tr,
    run rt w lines
    = ({| stdin := unread;
          trace := tr ++ [console_log green "CodeCopier completed successfully!"; rl_close];
          disk := {[ target_path rt w := payload ]} |},
       exit 0).
Proof.
  intros Hconfig Hview Hglob Hfiles Hloop Hsel Hread Hpayload Hwrite.
  run_to_selection Hconfig Hview Hglob Hfiles Hloop tr.
  rewrite (length_eqb_0 _ Hsel). cbv beta iota. cbn [stdin trace disk].
  match goal with
  | |- context [collectCode rt w (cwd w) (selectedFiles st) ?s] =>
      destruct (collectCode_reads rt w (cwd w) (selectedFiles st) texts s Hread)
        as [tr2 Heq2]; rewrite Heq2
  end.
  cbv beta iota. cbn [stdin trace disk].
  unfold target_path in *. unfold writeOutput, compressOutput, writeFileSync.
  cbv beta iota delta [bind emit throw ret].
  destruct (flag (ArgvOptions.compress (argv w))).
  - rewrite Hpayload, Hwrite. cbn [stdin trace disk].
    rewrite insert_empty,
      <- (assoc_L (++) _ [console_log green "CodeCopier completed successfully!"] [rl_close]).
    eexists. reflexivity.
  - rewrite Hwrite. cbn [stdin trace disk]. subst payload.
    rewrite insert_empty,
      <- (assoc_L (++) _ [console_log green "CodeCopier completed successfully!"] [rl_close]).
    eexists. reflexivity.
Qed.

Lemma run_end_to_end_witness :
  ∃ tr,
    run scenario_runtime scenario_project ["y"]
    = ({| stdin := [];
          trace := tr ++ [console_log green "CodeCopier completed successfully!"; rl_close];
          disk := {[ "/proj/codecopier_output.md"
                     := "# CodeCopier Output" +:+ nl +:+ nl
                        +:+ "## File: a.js" +:+ nl +:+ nl
                        +:+ "```javascript" +:+ nl
                        +:+ "console.log(1)" +:+ nl
                        +:+ "```" +:+ nl +:+ nl ]} |},
       exit 0).
Proof.
  apply (run_end_to_end scenario_runtime scenario_project ["y"] defaultConfig
           {| exclude := ["node_modules/**"; ".git/**"]; include := [default_include] |}
           ["a.js"]
           {| selectedFiles := ["a.js"]; index := 1;
              shown := [progress_bar 1 1;
                        rl_question yellow (nl +:+ "Include a.js? (y/n/p/q) ");
                        stdout_write nl] |}
           [] ["console.log(1)"]).
  - reflexivity.
  - reflexivity.
  - reflexivity.
  - discriminate.
  - reflexivity.
  - discriminate.
  - apply Forall2_cons; split; [reflexivity|]. apply Forall2_nil; exact I.
  - reflexivity.
  - reflexivity.
Defined.

(** ** Failures of the stages *)

Lemma collect_each_read_failure rt w rootPath total done texts file rest error :
  Forall2 (λ file text, readFileSync w (path_join rt rootPath file) = inr text) done texts →
  readFileSync w (path_join rt rootPath file) = inl error →
  ∀ index output s,
    (collect_each rt w rootPath total index (done ++ file :: rest) output s).2 = Abrupt error.
Proof.
  intros Hdone Hfail.
  induction Hdone as [|f t done texts Hread _ IH]; intros index output s.
  - cbn [app collect_each]. unfold bind at 1. unfold emit at 1.
    unfold bind at 1. by rewrite Hfail.
  - cbn [app collect_each]. unfold bind at 1. unfold emit at 1.
    unfold bind at 1. rewrite Hread. cbn [lift ret]. apply IH.
Qed.

(** X12.  The first selected file that cannot be read makes [collectCode]
    throw the error of that read, as it is: no document is returned, and
    the files after it are not read. *)
Theorem collectCode_read_failure rt w rootPath done texts file rest error s :
  Forall2 (λ file text, readFileSync w (path_join rt rootPath file) = inr text) done texts →
  readFileSync w (path_join rt rootPath file) = inl error →
  (collectCode rt w rootPath (done ++ file :: rest) s).2 = Abrupt error.
Proof.
  intros Hdone Hfail. unfold collectCode, bind at 1. unfold emit at 1.
  unfold bind at 1. unfold emit at 1. unfold bind at 1.
  match goal with
  | |- context [collect_each rt w rootPath ?t ?i _ ?o ?st] =>
      pose proof (collect_each_read_failure rt w rootPath t done texts file rest error
                    Hdone Hfail i o st) as Hr;
      destruct (collect_each rt w rootPath t i (done ++ file :: rest) o st) as [s' c]
  end.
  cbn [snd] in Hr. by rewrite Hr.
Qed.

Lemma collectCode_read_failure_witness :
  (collectCode plain_runtime scenario_project "/proj" ["a.js"; "gone.js"; "b.png"] (boot [])).2
  = Abrupt (ErrorObj {| message := "ENOENT: no such file or directory, open '/proj/gone.js'";
                        stack := "Error: ENOENT" |}).
Proof.
  apply (collectCode_read_failure plain_runtime scenario_project "/proj"
           ["a.js"] ["console.log(1)"] "gone.js" ["b.png"]).
  - apply Forall2_cons; split; [reflexivity|]. apply Forall2_nil; exact I.
  - reflexivity.
Defined.


Lemma string_items_inv items :
  existsb (λ pattern, negb (is_string pattern)) items = false →
  ∃ strings, items = JString <$> strings.
Proof.
  induction items as [|x items IH]; simpl; [by exists []|].
  destruct x; simpl; try discriminate.
  intros [strings ->]%IH. by eexists (_ :: _).
Qed.

Lemma string_items_ok strings :
  existsb (λ pattern, negb (is_string pattern)) (JString <$> strings) = false.
Proof. induction strings as [|x strings IH]; simpl; done. Qed.

(** X16.  [validateConfig] accepts a configuration exactly when its
    [exclude] and its [include] are both arrays holding only strings; what
    else the object holds does not matter. *)
Theorem validateConfig_accepts_string_arrays rt config :
  validateConfig rt config = inr tt
  ↔ ∃ ex inc,
      config !! "exclude" = Some (JArray (JString <$> ex))
      ∧ config !! "include" = Some (JArray (JString <$> inc)).
Proof.
  unfold validateConfig. split.
  - destruct (config !! "exclude") as [[| | | |ex|]|], (config !! "include") as [[| | | |inc|]|];
      cbn [isArray elements negb orb]; try discriminate.
    destruct (existsb _ ex) eqn:Hex; [discriminate|].
    destruct (existsb _ inc) eqn:Hinc; [discriminate|]. intros _.
    destruct (string_items_inv _ Hex) as [e ->], (string_items_inv _ Hinc) as [i ->].
    by exists e, i.
  - intros (ex & inc & -> & ->). cbn [isArray elements negb orb].
    by rewrite !string_items_ok.
Qed.

Lemma getAllFiles_value rt w dir config s files :
  (getAllFiles rt w dir config s).2 = Normal files →
  glob rt w (join "|" (include config)) dir (exclude config) true = inr files.
Proof.
  destruct (glob rt w (join "|" (include config)) dir (exclude config) true)
    as [err|found] eqn:Hglob.
  - unfold getAllFiles, bind, emit, throw. rewrite Hglob.
    destruct (includes "ENOENT" (message err)); [discriminate|].
    destruct (includes "EACCES" (message err)); discriminate.
  - rewrite (getAllFiles_found _ _ _ _ _ _ Hglob). by intros [= ->].
Qed.

(** X17.  Whatever the configuration, the list [getAllFiles] returns has
    no repetition, and each path in it is an entry of the walk that is not
    a directory, that no exclude pattern matches, and that the pattern
    given to glob matches. *)
Theorem discovery_returns_only_eligible_files rt w dir config files s :
  (getAllFiles rt w dir config s).2 = Normal files →
  NoDup files
  ∧ ∃ entries,
      walk w dir = inr entries
      ∧ ∀ file, file ∈ files →
          (file, false) ∈ entries
          ∧ existsb (λ ig, glob_ignored rt ig file) (exclude config) = false
          ∧ minimatch rt (join "|" (include config)) file = true.
Proof.
  intros Hglob%getAllFiles_value. split; [by eapply glob_NoDup|].
  unfold glob in Hglob. destruct (walk w dir) as [err|entries]; [discriminate|].
  injection Hglob as <-. exists entries. split; [done|].
  intros file Hin. eapply elem_of_sublist in Hin; [|apply set_order_sublist].
  apply list_elem_of_fmap in Hin as ([path dir'] & -> & Hin).
  apply list_elem_of_filter in Hin as [HP Hin]. cbn [fst snd] in *.
  apply Is_true_true in HP.
  apply andb_true_iff in HP as [HP Hdir]. apply andb_true_iff in HP as [Hmatch Hign].
  apply negb_true_iff in Hign, Hdir. cbn [andb] in Hdir. subst dir'. done.
Qed.

Lemma discovery_returns_only_eligible_files_witness :
  NoDup ["a.js"]
  ∧ ∃ entries,
      walk scenario_project "/proj" = inr entries
      ∧ ∀ file, file ∈ ["a.js"] →
          (file, false) ∈ entries
          ∧ existsb (λ ig, glob_ignored scenario_runtime ig file)
              ["node_modules/**"; ".git/**"] = false
          ∧ minimatch scenario_runtime default_include file = true.
Proof.
  apply (discovery_returns_only_eligible_files scenario_runtime scenario_project "/proj"
           {| exclude := ["node_modules/**"; ".git/**"]; include := [default_include] |}
           ["a.js"] (boot [])).
  reflexivity.
Defined.

(** ** The extension of a path *)

Lemma chars_append (a b : string) :
  String.list_ascii_of_string (a +:+ b)
  = (String.list_ascii_of_string a ++ String.list_ascii_of_string b)%list.
Proof.
  induction a as [|x a IH]; [reflexivity|].
  change (String.list_ascii_of_string (String x a +:+ b))
    with (x :: String.list_ascii_of_string (a +:+ b)).
  by rewrite IH.
Qed.

Lemma chars_length (a : string) :
  String.length a = length (String.list_ascii_of_string a).
Proof. induction a as [|x a IH]; simpl; [done|]. by rewrite IH. Qed.

Lemma substring_all (b : string) : String.substring 0 (String.length b) b = b.
Proof. induction b as [|x b IH]; simpl; [done|]. by rewrite IH. Qed.

Lemma substring_append (a b : string) :
  String.substring (String.length a) (String.length b) (a +:+ b) = b.
Proof.
  induction a as [|x a IH]; [apply substring_all|].
  change (String x a +:+ b) with (String x (a +:+ b)). simpl. apply IH.
Qed.

Lemma extname_loop_plain chars : ∀ rest i v,
  "."%char ∉ chars → "/"%char ∉ chars →
  startDot v = (-1)%Z → end_ v ≠ (-1)%Z →
  extname_loop (chars ++ rest) i v
  = extname_loop rest (i - Z.of_nat (length chars)) v.
Proof.
  induction chars as [|code chars IH]; intros rest i v Hdot Hslash Hstart Hend.
  - simpl. by rewrite Z.sub_0_r.
  - apply not_elem_of_cons in Hdot as [Hd Hdot].
    apply not_elem_of_cons in Hslash as [Hs Hslash].
    cbn [app extname_loop length].
    destruct (Ascii.eqb_spec code "/"); [congruence|].
    destruct (Ascii.eqb_spec code "."); [congruence|].
    destruct (Z.eqb_spec (end_ v) (-1)); [congruence|].
    rewrite Hstart. cbn [Z.eqb negb]. rewrite IH by done.
    f_equal. lia.
Qed.

Lemma extname_loop_first code rest i v :
  code ≠ "."%char → code ≠ "/"%char →
  startDot v = (-1)%Z → end_ v = (-1)%Z →
  extname_loop (code :: rest) i v
  = extname_loop rest (i - 1)
      {| startDot := startDot v; startPart := startPart v; end_ := i + 1;
         matchedSlash := false; preDotState := preDotState v |}.
Proof.
  intros Hd Hs Hstart Hend. cbn [extname_loop].
  destruct (Ascii.eqb_spec code "/"); [congruence|].
  destruct (Ascii.eqb_spec code "."); [congruence|].
  rewrite Hend. cbn [Z.eqb startDot]. rewrite Hstart. reflexivity.
Qed.

Lemma extname_loop_kept chars : ∀ i v,
  startDot v ≠ (-1)%Z → end_ v ≠ (-1)%Z → preDotState v ≠ 0%Z →
  startDot (extname_loop chars i v) = startDot v
  ∧ end_ (extname_loop chars i v) = end_ v
  ∧ preDotState (extname_loop chars i v) ≠ 0%Z.
Proof.
  induction chars as [|code chars IH]; intros i v Hstart Hend Hpre; [done|].
  cbn [extname_loop].
  destruct (Ascii.eqb code "/").
  { destruct (negb (matchedSlash v)); [done|]. by apply IH. }
  destruct (Z.eqb_spec (end_ v) (-1)); [congruence|].
  destruct (Z.eqb_spec (startDot v) (-1)); [congruence|]. cbn [negb].
  destruct (Ascii.eqb code ".").
  - destruct (Z.eqb_spec (preDotState v) 1); cbn [negb].
    + by apply IH.
    + destruct (IH (i - 1)%Z
                  {| startDot := startDot v; startPart := startPart v; end_ := end_ v;
                     matchedSlash := matchedSlash v; preDotState := 1 |})
        as (? & ? & ?); done.
  - destruct (IH (i - 1)%Z
                {| startDot := startDot v; startPart := startPart v; end_ := end_ v;
                   matchedSlash := matchedSlash v; preDotState := -1 |})
      as (? & ? & ?); done.
Qed.

Lemma extname_loop_dot rest i v :
  startDot v = (-1)%Z → end_ v ≠ (-1)%Z →
  extname_loop ("."%char :: rest) i v
  = extname_loop rest (i - 1)
      {| startDot := i; startPart := startPart v; end_ := end_ v;
         matchedSlash := matchedSlash v; preDotState := preDotState v |}.
Proof.
  intros Hstart Hend. cbn [extname_loop].
  change (Ascii.eqb "." "/") with false. change (Ascii.eqb "." ".") with true.
  cbv beta iota.
  destruct (Z.eqb_spec (end_ v) (-1)); [congruence|].
  rewrite Hstart. reflexivity.
Qed.

Lemma extname_loop_before_dot c rest i v :
  c ≠ "/"%char → startDot v ≠ (-1)%Z → end_ v ≠ (-1)%Z → preDotState v = 0%Z →
  extname_loop (c :: rest) i v
  = extname_loop rest (i - 1)
      {| startDot := startDot v; startPart := startPart v; end_ := end_ v;
         matchedSlash := matchedSlash v;
         preDotState := if Ascii.eqb c "." then 1 else -1 |}.
Proof.
  intros Hc Hstart Hend Hpre. cbn [extname_loop].
  destruct (Ascii.eqb_spec c "/"); [congruence|].
  destruct (Z.eqb_spec (end_ v) (-1)); [congruence|].
  destruct (Z.eqb_spec (startDot v) (-1)); [congruence|].
  rewrite Hpre. cbn [Z.eqb negb]. by destruct (Ascii.eqb c ".").
Qed.

Lemma extname_loop_named (P E : list ascii) (c : ascii) :
  c ≠ "/"%char → E ≠ [] → "."%char ∉ E → "/"%char ∉ E →
  let v := extname_loop (reverse (P ++ c :: "."%char :: E))
             (Z.of_nat (length (P ++ c :: "."%char :: E)) - 1)
             {| startDot := -1; startPart := 0; end_ := -1;
                matchedSlash := true; preDotState := 0 |} in
  startDot v = Z.of_nat (length P + 1)
  ∧ end_ v = Z.of_nat (length P + 2 + length E)
  ∧ preDotState v ≠ 0%Z.
Proof.
  intros Hc HE Hdot Hslash.
  assert (Hrev : reverse (P ++ c :: "."%char :: E)
                 = (reverse E ++ "."%char :: c :: reverse P)%list).
  { rewrite reverse_app, !reverse_cons, <- !(assoc_L (++)). reflexivity. }
  assert (Hlen : (Z.of_nat (length (P ++ c :: "."%char :: E)) - 1
                  = Z.of_nat (length P + 1 + length E))%Z).
  { rewrite length_app. simpl. lia. }
  rewrite Hrev, Hlen. clear Hrev Hlen.
  assert (HErev : length (reverse E) = length E) by apply length_reverse.
  assert (Hdot' : "."%char ∉ reverse E) by (by rewrite elem_of_reverse).
  assert (Hslash' : "/"%char ∉ reverse E) by (by rewrite elem_of_reverse).
  destruct (reverse E) as [|x xs].
  { destruct E; [done|]. simpl in HErev. lia. }
  apply not_elem_of_cons in Hdot' as [Hx1 Hdot'].
  apply not_elem_of_cons in Hslash' as [Hx2 Hslash'].
  simpl in HErev. cbn [app].
  rewrite extname_loop_first by done.
  rewrite extname_loop_plain by (done || (cbn [end_]; lia)).
  rewrite extname_loop_dot by (done || (cbn [end_]; lia)).
  rewrite extname_loop_before_dot by (done || (cbn [startDot end_]; lia)).
  match goal with
  | |- context [extname_loop (reverse P) ?i ?v] =>
      destruct (extname_loop_kept (reverse P) i v) as (Hs & He & Hp)
  end.
  - cbn [startDot]. lia.
  - cbn [end_]. lia.
  - cbn [preDotState]. by destruct (Ascii.eqb c ".").
  - cbv zeta. rewrite Hs, He. cbn [startDot end_]. split; [lia|]. split; [lia|done].
Qed.

Lemma extname_named prefix c ext :
  c ≠ "/"%char → ext ≠ EmptyString →
  "."%char ∉ String.list_ascii_of_string ext →
  "/"%char ∉ String.list_ascii_of_string ext →
  extname (prefix +:+ String c (String "." ext)) = String "." ext.
Proof.
  intros Hc Hext Hdot Hslash. unfold extname.
  rewrite chars_length, chars_append.
  change (String.list_ascii_of_string (String c (String "." ext)))
    with (c :: "."%char :: String.list_ascii_of_string ext).
  destruct (extname_loop_named (String.list_ascii_of_string prefix)
              (String.list_ascii_of_string ext) c) as (Hs & He & Hp); try done.
  { by destruct ext. }
  cbv zeta in Hs, He, Hp. rewrite Hs, He.
  destruct (Z.eqb_spec (Z.of_nat (length (String.list_ascii_of_string prefix) + 1)) (-1));
    [lia|].
  destruct (Z.eqb_spec (Z.of_nat (length (String.list_ascii_of_string prefix) + 2
                                  + length (String.list_ascii_of_string ext))) (-1));
    [lia|].
  match goal with |- context [(preDotState ?v =? 0)%Z] =>
    destruct (Z.eqb_spec (preDotState v) 0); [done|] end.
  assert (Hne : length (String.list_ascii_of_string ext) ≠ 0%nat) by (by destruct ext).
  match goal with |- context [(?a =? ?b - 1)%Z] =>
    destruct (Z.eqb_spec a (b - 1)); [lia|] end.
  rewrite andb_false_r. cbn [orb andb].
  replace (prefix +:+ String c (String "." ext))
    with ((prefix +:+ String c EmptyString) +:+ String "." ext)
    by (by rewrite append_assoc).
  replace (Z.to_nat (Z.of_nat (length (String.list_ascii_of_string prefix) + 1)))
    with (String.length (prefix +:+ String c EmptyString)).
  2:{ rewrite chars_length, chars_append, length_app. simpl. lia. }
  replace (Z.to_nat _) with (String.length (String "." ext)).
  2:{ rewrite !chars_length. simpl. lia. }
  apply substring_append.
Qed.

(** X18.  A name that ends in a dot and one of the ten extensions of
    [languageMap], the dot coming after a character other than a slash, is
    tagged with the language of that extension, whatever precedes it:
    directories, other dots, capital letters. *)
Theorem getFileExtension_known_extension prefix c ext tag :
  c ≠ "/"%char →
  languageMap !! ext = Some tag →
  getFileExtension (prefix +:+ String c (String "." ext)) = str tag.
Proof.
  intros Hc Htag.
  assert (Hext : ext ≠ EmptyString
                 ∧ ("."%char ∉ String.list_ascii_of_string ext)
                 ∧ ("/"%char ∉ String.list_ascii_of_string ext)).
  { apply elem_of_list_to_map_2 in Htag.
    repeat (apply elem_of_cons in Htag as [[= -> ->]|Htag];
            [split; [done|split; apply (bool_decide_eq_false_1 _); reflexivity]|]).
    inversion Htag. }
  destruct Hext as (Hne & Hdot & Hslash).
  unfold getFileExtension. rewrite extname_named by done. cbn [slice1].
  rewrite Htag. destruct (languageMap_tag _ _ Htag) as [Hnonempty _].
  by destruct (String.eqb_spec tag EmptyString).
Qed.

Lemma getFileExtension_known_extension_witness :
  getFileExtension "src/lib/My.Component.test.ts" = str "typescript".
Proof.
  apply (getFileExtension_known_extension "src/lib/My.Component.tes" "t" "ts" "typescript").
  - discriminate.
  - reflexivity.
Defined.

Lemma extname_loop_hidden N : ∀ tail i,
  (-1 ≤ i)%Z →
  "."%char ∉ N → "/"%char ∉ N →
  (tail = [] ∨ ∃ more, tail = "/"%char :: more) →
  preDotState
    (extname_loop (N ++ "."%char :: tail) i
       {| startDot := -1; startPart := 0; end_ := -1;
          matchedSlash := true; preDotState := 0 |}) = 0%Z.
Proof.
  intros tail i Hi Hdot Hslash Htail.
  assert (Hstop : ∀ j v, preDotState v = 0%Z → matchedSlash v = false →
            preDotState (extname_loop tail j v) = 0%Z).
  { intros j v Hp Hm. destruct Htail as [->|[more ->]]; [done|].
    cbn [extname_loop]. change (Ascii.eqb "/" "/") with true. cbv beta iota.
    by rewrite Hm. }
  destruct N as [|x xs].
  - cbn [app extname_loop].
    change (Ascii.eqb "." "/") with false. change (Ascii.eqb "." ".") with true.
    cbv beta iota. cbn [end_ startDot Z.eqb]. by apply Hstop.
  - apply not_elem_of_cons in Hdot as [Hx1 Hdot].
    apply not_elem_of_cons in Hslash as [Hx2 Hslash].
    cbn [app]. rewrite extname_loop_first by done.
    rewrite extname_loop_plain by (done || (cbn [end_]; lia)).
    rewrite extname_loop_dot by (done || (cbn [end_]; lia)).
    by apply Hstop.
Qed.

Lemma extname_hidden prefix name :
  (prefix = EmptyString ∨ ∃ dir, prefix = dir +:+ "/") →
  "."%char ∉ String.list_ascii_of_string name →
  "/"%char ∉ String.list_ascii_of_string name →
  extname (prefix +:+ String "." name) = EmptyString.
Proof.
  intros Hprefix Hdot Hslash. unfold extname.
  rewrite chars_append.
  change (String.list_ascii_of_string (String "." name))
    with ("."%char :: String.list_ascii_of_string name).
  rewrite reverse_app, reverse_cons, <- (assoc_L (++)). cbn [app].
  rewrite extname_loop_hidden; [by rewrite !orb_true_r|lia|by rewrite elem_of_reverse..|].
  destruct Hprefix as [->|[dir ->]]; [by left|right].
  rewrite chars_append.
  change (String.list_ascii_of_string "/") with ["/"%char].
  rewrite reverse_app. by eexists.
Qed.

(** X19.  A file whose name begins with a dot and has no other dot, such
    as [.gitignore] or [src/.babelrc], has no extension for the program:
    its block carries no language tag, whatever follows the dot, even
    [js]. *)
Theorem getFileExtension_hidden_file prefix name :
  (prefix = EmptyString ∨ ∃ dir, prefix = dir +:+ "/") →
  "."%char ∉ String.list_ascii_of_string name →
  "/"%char ∉ String.list_ascii_of_string name →
  getFileExtension (prefix +:+ String "." name) = str EmptyString.
Proof.
  intros Hprefix Hdot Hslash. unfold getFileExtension.
  by rewrite extname_hidden.
Qed.

Lemma getFileExtension_hidden_file_witness :
  getFileExtension "src/.js" = str EmptyString.
Proof.
  apply (getFileExtension_hidden_file "src/" "js").
  - right. exists "src". reflexivity.
  - apply (bool_decide_eq_false_1 _). reflexivity.
  - apply (bool_decide_eq_false_1 _). reflexivity.
Defined.

(** ** A pattern micromatch refuses *)

(** X20.  A pattern micromatch raises on (the empty line, for one) is not
    asked for again: the error leaves the loop, [selectFiles] throws it, and
    the files accepted so far are returned to nobody.  The lines after the
    pattern stay unread. *)
Theorem refused_pattern_aborts_selection rt files answers answer pattern rest error s :
  stdin s = (answers ++ answer :: pattern :: rest)%list →
  (length answers < length files)%nat →
  Forall (λ a, a = "y" ∨ a = "n") answers →
  toLowerCase answer = "p" →
  picomatch rt pattern = inl error →
  (selectFiles rt files s).2 = Abrupt error
  ∧ stdin (selectFiles rt files s).1 = rest.
Proof.
  intros Hin Hlen Hyn Hp Hpico.
  destruct (askForFile_yes_no_prefix rt files answers (answer :: pattern :: rest) fresh)
    as [sh Hsh]; [simpl; lia|done|].
  unfold selectFiles, bind, emit. cbn [stdin]. rewrite Hin, Hsh.
  rewrite (askForFile_pattern_rejected _ _ _ _ _ _ error); [done|simpl; lia|done|].
  unfold micromatch. by rewrite Hpico.
Qed.

Lemma refused_pattern_aborts_selection_witness :
  (selectFiles plain_runtime ["a.js"; "b.ts"; "c.js"] (boot ["y"; "p"; EmptyString; "y"])).2
  = Abrupt (ErrorObj {| message := "Expected pattern to be a non-empty string";
                        stack := "TypeError" |})
  ∧ stdin (selectFiles plain_runtime ["a.js"; "b.ts"; "c.js"]
             (boot ["y"; "p"; EmptyString; "y"])).1 = ["y"].
Proof.
  apply (refused_pattern_aborts_selection plain_runtime ["a.js"; "b.ts"; "c.js"]
           ["y"] "p" EmptyString ["y"]).
  - reflexivity.
  - simpl. lia.
  - apply Forall_cons; split; [left; reflexivity|]. apply Forall_nil; exact I.
  - reflexivity.
  - reflexivity.
Defined.
